(** * Canary integration: camera and sensor adapters

    A shallow embedding of
      homeassistant/components/canary/camera.py
      homeassistant/components/canary/sensor.py
    Method bodies are written in a small monad of Python statements (a
    statement completes normally, returns from its function, or raises),
    running over the adapter object and the collaborators it talks to. *)

From Stdlib Require Import ZArith Floats.
From Stdlib.Strings Require Import Byte Ascii.
From stdpp Require Import gmap strings list pretty.
Set Warnings "-inexact-float".

Local Open Scope Z_scope.

(** ** Python statements *)

Module Py.

(** The exception classes the two files mention or can meet. *)
Inductive exn : Set :=
| KeyError
| IndexError
| AttributeError
| TimeoutException      (* httpx.TimeoutException *)
| RequestError          (* httpx.RequestError, other than a timeout *)
| HTTPStatusError       (* httpx.HTTPStatusError *)
| CancelledError.       (* asyncio.CancelledError: the caller went away *)

Definition exn_eqb (a b : exn) : bool :=
  match a, b with
  | KeyError, KeyError | IndexError, IndexError
  | AttributeError, AttributeError
  | TimeoutException, TimeoutException | RequestError, RequestError
  | HTTPStatusError, HTTPStatusError | CancelledError, CancelledError => true
  | _, _ => false
  end.

(** [isinstance e cls]: httpx.TimeoutException derives from
    httpx.RequestError; the other classes are unrelated. *)
Definition isinstance (e cls : exn) : bool :=
  match e, cls with
  | TimeoutException, RequestError => true
  | _, _ => exn_eqb e cls
  end.

Definition caught (e : exn) (classes : list exn) : bool :=
  List.existsb (isinstance e) classes.

(** How a statement of a function returning [R] completes. *)
Inductive completion (R A : Type) : Type :=
| Normal (a : A)
| Return (r : R)
| Raise (e : exn).
Arguments Normal {R A} a.
Arguments Return {R A} r.
Arguments Raise {R A} e.

(** How a call completes. *)
Inductive outcome (A : Type) : Type :=
| Ok (a : A)
| Raised (e : exn).
Arguments Ok {A} a.
Arguments Raised {A} e.

Section Prog.
Context {E S : Type}.

(** A statement reads its environment [E] and updates the state [S];
    what it did to the state stays done when it raises. *)
Definition prog (R A : Type) : Type := E -> S -> completion R A * S.

Definition ret {R A} (a : A) : prog R A := fun _ s => (Normal a, s).

Definition bind {R A B} (m : prog R A) (k : A -> prog R B) : prog R B :=
  fun e s =>
    match m e s with
    | (Normal a, s') => k a e s'
    | (Return r, s') => (Return r, s')
    | (Raise x, s') => (Raise x, s')
    end.

Definition return_ {R A} (r : R) : prog R A := fun _ s => (Return r, s).
Definition raise {R A} (x : exn) : prog R A := fun _ s => (Raise x, s).

Definition ask {R} : prog R E := fun e s => (Normal e, s).
Definition get {R} : prog R S := fun _ s => (Normal s, s).
Definition modify {R} (f : S -> S) : prog R unit := fun _ s => (Normal tt, f s).

(** An expression that may raise, used as a statement. *)
Definition lift {R A} (o : outcome A) : prog R A :=
  match o with
  | Ok a => ret a
  | Raised x => raise x
  end.

(** [try: body / except classes: handler / except ...]: the first
    clause whose classes match handles the exception. *)
Fixpoint handler_for {R A} (clauses : list (list exn * prog R A)) (x : exn)
    : option (prog R A) :=
  match clauses with
  | [] => None
  | (classes, handler) :: rest =>
      if caught x classes then Some handler else handler_for rest x
  end.

Definition try_except {R A} (body : prog R A)
    (clauses : list (list exn * prog R A)) : prog R A :=
  fun e s =>
    match body e s with
    | (Raise x, s') =>
        match handler_for clauses x with
        | Some handler => handler e s'
        | None => (Raise x, s')
        end
    | done => done
    end.

(** [try: body / finally: final]. *)
Definition try_finally {R A} (body : prog R A) (final : prog R unit) : prog R A :=
  fun e s =>
    let '(c, s') := body e s in
    match final e s' with
    | (Normal _, s'') => (c, s'')
    | (Return r, s'') => (Return r, s'')
    | (Raise x, s'') => (Raise x, s'')
    end.

(** A method invoked from another method's body. *)
Definition invoke {R R'} (body : prog R R) : prog R' R :=
  fun e s =>
    match body e s with
    | (Normal r, s') | (Return r, s') => (Normal r, s')
    | (Raise x, s') => (Raise x, s')
    end.

(** A method called from outside. *)
Definition call {R} (body : prog R R) (e : E) (s : S) : outcome R * S :=
  match body e s with
  | (Normal r, s') | (Return r, s') => (Ok r, s')
  | (Raise x, s') => (Raised x, s')
  end.
End Prog.

(** What a call gives, seen through [f]. *)
Definition outcome_map {A B : Type} (f : A -> B) (o : outcome A) : outcome B :=
  match o with
  | Ok a => Ok (f a)
  | Raised e => Raised e
  end.

(** [d[k]] on a dict and [l[0]] on a list. *)
Definition getitem_dict {V : Type} (d : gmap Z V) (k : Z) : outcome V :=
  match d !! k with
  | Some v => Ok v
  | None => Raised KeyError
  end.

Definition getitem_list {A : Type} (l : list A) (i : nat) : outcome A :=
  match l !! i with
  | Some a => Ok a
  | None => Raised IndexError
  end.

(** [d[k]] and [d.get(k)] on a dict with string keys whose values may be
    [None]: [get] gives [None] for a missing key as well. *)
Definition getitem_str {V : Type} (d : gmap string V) (k : string) : outcome V :=
  match d !! k with
  | Some v => Ok v
  | None => Raised KeyError
  end.

Definition dict_get {V : Type} (d : gmap string (option V)) (k : string)
    : option V :=
  match d !! k with
  | Some v => v
  | None => None
  end.

(** [for x in l: body], with the variable the body rebinds threaded
    through; the loop ends at the first iteration that raises. *)
Fixpoint for_each {A B : Type} (l : list A) (body : B -> A -> outcome B)
    (acc : B) : outcome B :=
  match l with
  | [] => Ok acc
  | x :: rest =>
      match body acc x with
      | Ok acc' => for_each rest body acc'
      | Raised e => Raised e
      end
  end.

(** [l.append(C(...))], where the constructor call may raise. *)
Definition list_append {A : Type} (l : list A) (o : outcome A)
    : outcome (list A) :=
  match o with
  | Ok a => Ok (l ++ [a])
  | Raised e => Raised e
  end.

(** Attribute access through a reference that may be [None]. *)
Definition deref {A : Type} (o : option A) : outcome A :=
  match o with
  | Some a => Ok a
  | None => Raised AttributeError
  end.

(** Truth value of [str | None] and of [bytes | None]. *)
Definition truthy_str (o : option string) : bool :=
  match o with
  | Some s => negb (String.eqb s "")
  | None => false
  end.

Definition truthy_bytes (o : option (list byte)) : bool :=
  match o with
  | Some (_ :: _) => true
  | _ => false
  end.

Definition is_None {A : Type} (o : option A) : bool :=
  match o with
  | Some _ => false
  | None => true
  end.

(** The built-in [round(x, ndigits)] on a float: the decimal with
    [ndigits] places nearest to the exact value of [x] (an exact tie goes
    to the even digit), converted back to the nearest float.  Zeros,
    infinities and nan come back unchanged, and a result that rounds to
    zero keeps the sign of [x]. *)
Definition round_half_even (num den : Z) : Z :=
  let q := num / den in
  let r := num mod den in
  match 2 * r ?= den with
  | Lt => q
  | Gt => q + 1
  | Eq => if Z.even q then q else q + 1
  end.

Definition round (x : float) (ndigits : Z) : float :=
  match Prim2SF x with
  | S754_finite s m e =>
      let up := 10 ^ Z.max ndigits 0 in
      let down := 10 ^ Z.max (- ndigits) 0 in
      let k := round_half_even (Z.pos m * 2 ^ Z.max e 0 * up)
                               (2 ^ Z.max (- e) 0 * down) in
      match (k * down)%Z, up with
      | Z.pos n, Z.pos d =>
          SF2Prim (SFdiv prec emax (S754_finite s n 0) (S754_finite false d 0))
      | _, _ => SF2Prim (S754_zero s)
      end
  | _ => x
  end.

End Py.

Export Py.

Declare Scope prog_scope.
Delimit Scope prog_scope with prog.
Notation "'let*' x ':=' c 'in' k" := (bind c (fun x => k))
  (at level 10, x name, c at level 100, k at level 200) : prog_scope.
Notation "c1 >>> c2" := (bind c1 (fun _ => c2))
  (at level 90, right associativity) : prog_scope.

(** ** The vendor's data (canary.model) and the coordinator's snapshot *)

(** [device.device_type] is the vendor's descriptor, a dict; the adapters
    only read its "name", which may be missing or null. *)
Abbreviation DeviceType := (gmap string (option string)).

Record Device : Type := {
  device_id : Z;
  name : string;
  is_online : bool;
  device_type : DeviceType
}.

Record Location : Type := {
  location_name : string;
  is_recording : bool;
  devices : list Device
}.

Record Thumbnail : Type := { image_url : string }.

(** A [datetime], as seconds since the epoch. *)
Definition datetime : Type := Z.

Record Entry : Type := {
  entry_id : Z;
  start_time : datetime;
  thumbnails : list Thumbnail
}.

Inductive SensorType : Set :=
| AIR_QUALITY
| TEMPERATURE
| HUMIDITY
| WIFI
| BATTERY
| DATE_LAST_ENTRY
| ENTRIES_CAPTURED_TODAY.

Definition SensorType_eqb (a b : SensorType) : bool :=
  match a, b with
  | AIR_QUALITY, AIR_QUALITY | TEMPERATURE, TEMPERATURE
  | HUMIDITY, HUMIDITY | WIFI, WIFI | BATTERY, BATTERY
  | DATE_LAST_ENTRY, DATE_LAST_ENTRY
  | ENTRIES_CAPTURED_TODAY, ENTRIES_CAPTURED_TODAY => true
  | _, _ => false
  end.

(** A reading's kind is [None] when the vendor names a kind the client
    library does not know; its value is a number or [None]. *)
Record Reading : Type := {
  sensor_type : option SensorType;
  value : option float
}.

(** [coordinator.data]: locations in the order the dict yields them,
    entries (newest first) and readings by device id. *)
Record CanaryData : Type := {
  locations : list (string * Location);
  entries : gmap Z (list Entry);
  readings : gmap Z (list Reading)
}.

(** ** sensor.py *)

Module Sensor.

Definition SENSOR_VALUE_PRECISION : Z := 2.
Definition ATTR_AIR_QUALITY : string := "air_quality".

Definition CANARY_PRO : string := "Canary Pro".
Definition CANARY_FLEX : string := "Canary Flex".
Definition CANARY_VIEW : string := "Canary View".

(** Constants of homeassistant.const and of the sensor platform. *)
Inductive unit_of_measurement : Set :=
| TEMP_CELSIUS
| PERCENTAGE
| SIGNAL_STRENGTH_DECIBELS_MILLIWATT.

Inductive SensorDeviceClass : Set :=
| DC_TEMPERATURE
| DC_HUMIDITY
| DC_SIGNAL_STRENGTH
| DC_BATTERY
| DC_TIMESTAMP.

(** The tuple (name, unit, icon, device class, products supported);
    [st_name] is index 0 and [st_products] index 4. *)
Record SensorTypeItem : Type := {
  st_name : string;
  st_unit : option unit_of_measurement;
  st_icon : option string;
  st_device_class : option SensorDeviceClass;
  st_products : list string
}.

Definition SENSOR_TYPES : list SensorTypeItem := [
  {| st_name := "temperature"; st_unit := Some TEMP_CELSIUS; st_icon := None;
     st_device_class := Some DC_TEMPERATURE; st_products := [CANARY_PRO] |};
  {| st_name := "humidity"; st_unit := Some PERCENTAGE; st_icon := None;
     st_device_class := Some DC_HUMIDITY; st_products := [CANARY_PRO] |};
  {| st_name := "air_quality"; st_unit := None; st_icon := Some "mdi:weather-windy";
     st_device_class := None; st_products := [CANARY_PRO] |};
  {| st_name := "wifi"; st_unit := Some SIGNAL_STRENGTH_DECIBELS_MILLIWATT;
     st_icon := None; st_device_class := Some DC_SIGNAL_STRENGTH;
     st_products := [CANARY_PRO; CANARY_FLEX; CANARY_VIEW] |};
  {| st_name := "battery"; st_unit := Some PERCENTAGE; st_icon := None;
     st_device_class := Some DC_BATTERY; st_products := [CANARY_FLEX] |};
  {| st_name := "last_entry_date"; st_unit := None; st_icon := Some "mdi:run-fast";
     st_device_class := Some DC_TIMESTAMP;
     st_products := [CANARY_PRO; CANARY_FLEX] |};
  {| st_name := "entries_captured_today"; st_unit := None;
     st_icon := Some "mdi:file-video"; st_device_class := None;
     st_products := [CANARY_PRO; CANARY_FLEX; CANARY_VIEW] |}
].

Definition STATE_AIR_QUALITY_NORMAL : string := "normal".
Definition STATE_AIR_QUALITY_ABNORMAL : string := "abnormal".
Definition STATE_AIR_QUALITY_VERY_ABNORMAL : string := "very_abnormal".

(** The attributes of a sensor entity that the accessors read, and the
    model name its device info records. *)
Record CanarySensor : Type := {
  _sensor_type : SensorTypeItem;
  _device_id : Z;
  _canary_type : option SensorType;
  _canary_data_type : option string;
  _attr_device_info_model : option string;
  _attr_native_unit_of_measurement : option unit_of_measurement;
  _attr_device_class : option SensorDeviceClass;
  _attr_icon : option string
}.

(** [CanarySensor.__init__]: the chain of [if]/[elif] on the type name
    sets the vendor's kind and the data type together; the device info
    indexes the descriptor with "name" and raises when it is missing. *)
Definition __init__ (sensor_type : SensorTypeItem) (location : Location)
    (device : Device) : outcome CanarySensor :=
  let n := st_name sensor_type in
  let types :=
    if String.eqb n "air_quality" then (Some AIR_QUALITY, Some "reading"%string)
    else if String.eqb n "temperature" then (Some TEMPERATURE, Some "reading"%string)
    else if String.eqb n "humidity" then (Some HUMIDITY, Some "reading"%string)
    else if String.eqb n "wifi" then (Some WIFI, Some "reading"%string)
    else if String.eqb n "battery" then (Some BATTERY, Some "reading"%string)
    else if String.eqb n "last_entry_date" then (Some DATE_LAST_ENTRY, Some "entry"%string)
    else if String.eqb n "entries_captured_today"
         then (Some ENTRIES_CAPTURED_TODAY, Some "entry"%string)
    else (None, None) in
  let canary_sensor_type := fst types in
  let canary_data_type := snd types in
  match getitem_str (device_type device) "name" with
  | Ok model =>
      Ok {| _sensor_type := sensor_type;
            _device_id := device_id device;
            _canary_type := canary_sensor_type;
            _canary_data_type := canary_data_type;
            _attr_device_info_model := model;
            _attr_native_unit_of_measurement := st_unit sensor_type;
            _attr_device_class := st_device_class sensor_type;
            _attr_icon := st_icon sensor_type |}
  | Raised x => Raised x
  end.

(** [x in l] for a name that may be [None] and a list of strings. *)
Definition name_in (x : option string) (l : list string) : bool :=
  match x with
  | Some n => List.existsb (String.eqb n) l
  | None => false
  end.

(** [async_setup_entry]: the three nested loops, appending to [sensors];
    a constructor that raises ends them. *)
Definition async_setup_entry (data : CanaryData) : outcome (list CanarySensor) :=
  for_each (locations data) (fun sensors '(_, location) =>
    for_each (devices location) (fun sensors device =>
      if is_online device then
        let device_type := device_type device in
        for_each SENSOR_TYPES (fun sensors sensor_type =>
          if name_in (dict_get device_type "name") (st_products sensor_type)
          then list_append sensors (__init__ sensor_type location device)
          else Ok sensors)
          sensors
      else Ok sensors)
      sensors)
    [].

(** The accessors read [coordinator.data] and never write [self]. *)
Local Open Scope prog_scope.

Definition kind_eqb (a b : option SensorType) : bool :=
  match a, b with
  | Some x, Some y => SensorType_eqb x y
  | None, None => true
  | _, _ => false
  end.

(** [next((r.value for r in readings if r.sensor_type == kind), None)] *)
Fixpoint next_value (readings : list Reading) (kind : option SensorType)
    : option float :=
  match readings with
  | [] => None
  | r :: rest =>
      if kind_eqb (sensor_type r) kind then value r else next_value rest kind
  end.

Definition reading (self : CanarySensor)
    : prog (E:=CanaryData) (S:=unit) (option float) (option float) :=
  let* data := ask in
  let* readings :=
    try_except (lift (getitem_dict (readings data) (_device_id self)))
      [([KeyError], return_ None)] in
  let value := next_value readings (_canary_type self) in
  (* [float(value)] is [value]: the readings carry floats *)
  match value with
  | Some v => return_ (Some (round v SENSOR_VALUE_PRECISION))
  | None => return_ None
  end.

(** [float | str | datetime | int], without the [None]. *)
Inductive state_value : Type :=
| SVfloat (x : float)
| SVint (n : Z)
| SVdatetime (t : datetime).

Definition opt_str_eqb (o : option string) (s : string) : bool :=
  match o with
  | Some x => String.eqb x s
  | None => false
  end.

Definition native_value (self : CanarySensor)
    : prog (E:=CanaryData) (S:=unit) (option state_value) (option state_value) :=
  (if opt_str_eqb (_canary_data_type self) "reading" then
     let* r := invoke (reading self) in
     return_ (SVfloat <$> r)
   else ret tt) >>>
  (if opt_str_eqb (_canary_data_type self) "entry" then
     let* data := ask in
     let* entry :=
       try_except (lift (getitem_dict (entries data) (_device_id self)))
         [([KeyError], return_ None)] in
     (* [entry is not None] holds of every list *)
     (if String.eqb (st_name (_sensor_type self)) "entries_captured_today" then
        return_ (Some (SVint (Z.of_nat (length entry))))
      else ret tt) >>>
     (if String.eqb (st_name (_sensor_type self)) "last_entry_date" then
        try_except
          (let* e0 := lift (getitem_list entry 0) in
           return_ (Some (SVdatetime (start_time e0))))
          [([IndexError], return_ None)]
      else ret tt)
   else ret tt) >>>
  return_ None.

Definition extra_state_attributes (self : CanarySensor)
    : prog (E:=CanaryData) (S:=unit)
           (option (gmap string string)) (option (gmap string string)) :=
  let* reading := invoke (reading self) in
  match String.eqb (st_name (_sensor_type self)) "air_quality", reading with
  | true, Some reading =>
      let air_quality :=
        if (reading <=? 0.4)%float then STATE_AIR_QUALITY_VERY_ABNORMAL
        else if (reading <=? 0.59)%float then STATE_AIR_QUALITY_ABNORMAL
        else STATE_AIR_QUALITY_NORMAL in
      return_ (Some {[ ATTR_AIR_QUALITY := air_quality ]})
  | _, _ => return_ None
  end.

End Sensor.

(** ** camera.py *)

Module Camera.

(** Seconds. *)
Definition MIN_TIME_BETWEEN_SESSION_RENEW : Z := 90.

(** What the adapter reads of the collaborators' objects. *)
Record LiveStreamSession : Type := { live_stream_url : option string }.
Record Response : Type := { is_success : bool; content : list byte }.
Definition Request : Type := Z.
Definition StreamReader : Type := Z.
Definition StreamResponse : Type := Z.

Record CanaryCamera : Type := {
  _ffmpeg_arguments : string;
  _location_id : string;
  _device : Device;
  _live_stream_session : option LiveStreamSession;
  _attr_name : string;
  _attr_device_info_model : option string;
  _live_stream_url : option string;
  _image : option (list byte);
  _last_event : option Entry;
  _last_image_id : option Z;
  _image_url : option string;
  _throttle : option Z  (* when the throttled renewal last ran *)
}.

(** [self.x = v] *)
Definition set_live_stream_session (v : option LiveStreamSession) (c : CanaryCamera) : CanaryCamera :=
  {| _ffmpeg_arguments := _ffmpeg_arguments c;
     _location_id := _location_id c;
     _device := _device c;
     _live_stream_session := v;
     _attr_name := _attr_name c;
     _attr_device_info_model := _attr_device_info_model c;
     _live_stream_url := _live_stream_url c;
     _image := _image c;
     _last_event := _last_event c;
     _last_image_id := _last_image_id c;
     _image_url := _image_url c;
     _throttle := _throttle c |}.

Definition set_live_stream_url (v : option string) (c : CanaryCamera) : CanaryCamera :=
  {| _ffmpeg_arguments := _ffmpeg_arguments c;
     _location_id := _location_id c;
     _device := _device c;
     _live_stream_session := _live_stream_session c;
     _attr_name := _attr_name c;
     _attr_device_info_model := _attr_device_info_model c;
     _live_stream_url := v;
     _image := _image c;
     _last_event := _last_event c;
     _last_image_id := _last_image_id c;
     _image_url := _image_url c;
     _throttle := _throttle c |}.

Definition set_image (v : option (list byte)) (c : CanaryCamera) : CanaryCamera :=
  {| _ffmpeg_arguments := _ffmpeg_arguments c;
     _location_id := _location_id c;
     _device := _device c;
     _live_stream_session := _live_stream_session c;
     _attr_name := _attr_name c;
     _attr_device_info_model := _attr_device_info_model c;
     _live_stream_url := _live_stream_url c;
     _image := v;
     _last_event := _last_event c;
     _last_image_id := _last_image_id c;
     _image_url := _image_url c;
     _throttle := _throttle c |}.

Definition set_last_event (v : option Entry) (c : CanaryCamera) : CanaryCamera :=
  {| _ffmpeg_arguments := _ffmpeg_arguments c;
     _location_id := _location_id c;
     _device := _device c;
     _live_stream_session := _live_stream_session c;
     _attr_name := _attr_name c;
     _attr_device_info_model := _attr_device_info_model c;
     _live_stream_url := _live_stream_url c;
     _image := _image c;
     _last_event := v;
     _last_image_id := _last_image_id c;
     _image_url := _image_url c;
     _throttle := _throttle c |}.

Definition set_last_image_id (v : option Z) (c : CanaryCamera) : CanaryCamera :=
  {| _ffmpeg_arguments := _ffmpeg_arguments c;
     _location_id := _location_id c;
     _device := _device c;
     _live_stream_session := _live_stream_session c;
     _attr_name := _attr_name c;
     _attr_device_info_model := _attr_device_info_model c;
     _live_stream_url := _live_stream_url c;
     _image := _image c;
     _last_event := _last_event c;
     _last_image_id := v;
     _image_url := _image_url c;
     _throttle := _throttle c |}.

Definition set_image_url (v : option string) (c : CanaryCamera) : CanaryCamera :=
  {| _ffmpeg_arguments := _ffmpeg_arguments c;
     _location_id := _location_id c;
     _device := _device c;
     _live_stream_session := _live_stream_session c;
     _attr_name := _attr_name c;
     _attr_device_info_model := _attr_device_info_model c;
     _live_stream_url := _live_stream_url c;
     _image := _image c;
     _last_event := _last_event c;
     _last_image_id := _last_image_id c;
     _image_url := v;
     _throttle := _throttle c |}.

Definition set_throttle (v : option Z) (c : CanaryCamera) : CanaryCamera :=
  {| _ffmpeg_arguments := _ffmpeg_arguments c;
     _location_id := _location_id c;
     _device := _device c;
     _live_stream_session := _live_stream_session c;
     _attr_name := _attr_name c;
     _attr_device_info_model := _attr_device_info_model c;
     _live_stream_url := _live_stream_url c;
     _image := _image c;
     _last_event := _last_event c;
     _last_image_id := _last_image_id c;
     _image_url := _image_url c;
     _throttle := v |}.

(** [CanaryCamera.__init__]: the device info indexes the descriptor with
    "name" and raises when it is missing. *)
Definition __init__ (location_id : string) (device : Device)
    (ffmpeg_args : string) : outcome CanaryCamera :=
  match getitem_str (device_type device) "name" with
  | Ok model =>
      Ok {| _ffmpeg_arguments := ffmpeg_args;
            _location_id := location_id;
            _device := device;
            _live_stream_session := None;
            _attr_name := name device;
            _attr_device_info_model := model;
            _live_stream_url := None;
            _image := None;
            _last_event := None;
            _last_image_id := None;
            _image_url := None;
            _throttle := None |}
  | Raised x => Raised x
  end.

(** [async_setup_entry]: the two nested loops, appending to [cameras]; a
    constructor that raises ends them, before [async_add_entities]. *)
Definition async_setup_entry (data : CanaryData) (ffmpeg_arguments : string)
    : outcome (list CanaryCamera) :=
  for_each (locations data) (fun cameras '(location_id, location) =>
    for_each (devices location) (fun cameras device =>
      if is_online device
      then list_append cameras (__init__ location_id device ffmpeg_arguments)
      else Ok cameras)
      cameras)
    [].

(** What one request finds around the adapter: the snapshot, the clock,
    and what each collaborator answers when it is called. *)
Record World : Type := {
  data : CanaryData;
  utcnow : Z;
  client_get : string -> outcome Response;
  get_live_stream_session : Device -> LiveStreamSession;
  async_get_image : string -> string -> option Z -> option Z -> option (list byte);
  open_camera : string -> string -> outcome unit;
  get_reader : outcome StreamReader;
  async_aiohttp_proxy_stream : Request -> StreamReader -> outcome StreamResponse
}.

(** What the adapter did to its collaborators, oldest first.  A call is
    recorded when it is made; [StreamOpened] is recorded once
    [open_camera] has come back, that is, once the process runs. *)
Inductive event : Type :=
| HttpGet (url : string) (timeout : Z)
| SessionRequested (device : Z)
| RenewStarted
| ImageGrabbed (url extra_cmd : string)
| StreamOpened (url extra_cmd : string)
| ReaderRequested
| StreamProxied
| StreamClosed.

Record state : Type := { self : CanaryCamera; trace : list event }.

Definition prog (R A : Type) : Type := Py.prog (E:=World) (S:=state) R A.

Local Open Scope prog_scope.

Definition update {R} (f : CanaryCamera -> CanaryCamera) : prog R unit :=
  modify (fun s => {| self := f (self s); trace := trace s |}).

Definition emit {R} (ev : event) : prog R unit :=
  modify (fun s => {| self := self s; trace := trace s ++ [ev] |}).

Definition this {R} : prog R CanaryCamera :=
  let* s := get in ret (self s).

(** [a != b] where [a] may be [None] and [b] is an id. *)
Definition id_ne (a : option Z) (b : Z) : bool :=
  match a with
  | Some x => negb (x =? b)
  | None => true
  end.

Definition _check_for_new_image : prog unit unit :=
  let* me := this in
  let* w := ask in
  (match _last_event me with
   | None =>
       try_except
         (let* l := lift (getitem_dict (entries (data w)) (device_id (_device me))) in
          let* e0 := lift (getitem_list l 0) in
          update (set_last_event (Some e0)))
         [([KeyError], return_ tt)]
   | Some seen =>
       let* last_event :=
         try_except
           (lift (getitem_dict (entries (data w)) (device_id (_device me))))
           [([KeyError], return_ tt)] in
       let* e0 := lift (getitem_list last_event 0) in
       if negb (entry_id seen =? entry_id e0)
       then update (set_last_event (Some e0))
       else ret tt
   end) >>>
  let* me := this in
  (match _last_event me with
   | Some ev =>
       if id_ne (_last_image_id me) (entry_id ev)
       then update (set_image None)
       else ret tt
   | None => ret tt
   end) >>>
  try_except
    (let* ev := lift (deref (_last_event me)) in
     let* t0 := lift (getitem_list (thumbnails ev) 0) in
     update (set_image_url (Some (image_url t0))))
    [([IndexError], update (set_image_url None))].

(** Modelled from the spec: the decorator [homeassistant.util.Throttle]
    is not among the sources.  The spec calls it "a minimum-interval gate
    limiting how often an operation's underlying action executes
    regardless of call frequency", under which renewal runs "at most once
    per 90 seconds" and a call inside the window is a no-op.  The gate
    keeps in [_throttle] the time the action last ran; the action is due
    when it never ran or when more than [min_time] has passed since. *)
Definition due (min_time : Z) (last_run : option Z) (now : Z) : bool :=
  match last_run with
  | Some last => min_time <? now - last
  | None => true
  end.

Definition Throttle (min_time : Z) (method : prog unit unit) : prog unit unit :=
  let* me := this in
  let* w := ask in
  if due min_time (_throttle me) (utcnow w) then
    invoke method >>>
    update (set_throttle (Some (utcnow w)))
  else ret tt.

Definition renew_live_stream_session : prog unit unit :=
  Throttle MIN_TIME_BETWEEN_SESSION_RENEW
    (let* me := this in
     let* w := ask in
     emit (SessionRequested (device_id (_device me))) >>>
     let session := get_live_stream_session w (_device me) in
     update (set_live_stream_session (Some session)) >>>
     emit RenewStarted >>>
     update (set_live_stream_url (live_stream_url session))).

Definition raise_for_status {R} (response : Response) : prog R unit :=
  if is_success response then ret tt else raise HTTPStatusError.

(** [async_camera_image] is the check above followed by two blocks.
    The first grabs the latest entry image. *)
Definition fetch_entry_image : prog (option (list byte)) unit :=
  let* me := this in
  let* w := ask in
  let url := _image_url me in
  if is_None (_image me) && truthy_str url then
    (* [url] is a non-empty string here *)
    let url := default "" url in
    try_except
      (emit (HttpGet url 10) >>>
       let* response := lift (client_get w url) in
       raise_for_status response >>>
       update (set_image (Some (content response))) >>>
       let* me := this in
       update (set_last_image_id (entry_id <$> _last_event me)))
      [([TimeoutException], ret tt);
       ([RequestError; HTTPStatusError], ret tt)]
  else ret tt.

(** The second grabs the live view if there still is no image. *)
Definition grab_live_view (width height : option Z)
    : prog (option (list byte)) unit :=
  let* me := this in
  let* w := ask in
  if is_None (_image me) then
    invoke renew_live_stream_session >>>
    let* me := this in
    (if negb (truthy_str (_live_stream_url me)) then return_ None else ret tt) >>>
    (if is_None (_image me) && truthy_str (_live_stream_url me) then
       let live := default "" (_live_stream_url me) in
       emit (ImageGrabbed live (_ffmpeg_arguments me)) >>>
       let image := async_get_image w live (_ffmpeg_arguments me) width height in
       if truthy_bytes image then update (set_image image) else ret tt
     else ret tt)
  else ret tt.

Definition async_camera_image (width height : option Z)
    : prog (option (list byte)) (option (list byte)) :=
  invoke _check_for_new_image >>>
  fetch_entry_image >>>
  grab_live_view width height >>>
  let* me := this in
  return_ (_image me).

Definition handle_async_mjpeg_stream (request : Request)
    : prog (option StreamResponse) (option StreamResponse) :=
  invoke renew_live_stream_session >>>
  let* me := this in
  let* w := ask in
  (if negb (truthy_str (_live_stream_url me)) then return_ None else ret tt) >>>
  let live := default "" (_live_stream_url me) in
  lift (open_camera w live (_ffmpeg_arguments me)) >>>
  emit (StreamOpened live (_ffmpeg_arguments me)) >>>
  try_finally
    (emit ReaderRequested >>>
     let* stream_reader := lift (get_reader w) in
     emit StreamProxied >>>
     let* response := lift (async_aiohttp_proxy_stream w request stream_reader) in
     return_ (Some response))
    (emit StreamClosed).

End Camera.

(** ** The vocabulary of the claims *)

Module Spec.

Import Sensor.

(** "reading-type metrics (temperature, humidity, air_quality, wifi,
    battery)" and the kind of reading each one looks for. *)
Definition reading_metric (metric : string) : option SensorType :=
  if String.eqb metric "temperature" then Some TEMPERATURE
  else if String.eqb metric "humidity" then Some HUMIDITY
  else if String.eqb metric "air_quality" then Some AIR_QUALITY
  else if String.eqb metric "wifi" then Some WIFI
  else if String.eqb metric "battery" then Some BATTERY
  else None.

(** "the first reading matching this metric kind" *)
Definition first_of_kind (kind : SensorType) (l : list Reading) : option Reading :=
  List.find (fun r => kind_eqb (sensor_type r) (Some kind)) l.

(** "rounded to 2 decimal places" *)
Definition rounded (x : float) : float := round x 2.


(** Every device of the snapshot with the location that owns it, in the
    order the setup loops meet them. *)
Definition device_occurrences (data : CanaryData)
    : list (string * Location * Device) :=
  flat_map (fun '(location_id, location) =>
              map (fun device => (location_id, location, device)) (devices location))
           (locations data).

Definition online (o : string * Location * Device) : bool := is_online (snd o).

(** "the device's product-model descriptor is listed as supporting that
    metric" *)
Definition supports (device : Device) (metric : SensorTypeItem) : bool :=
  name_in (dict_get (device_type device) "name") (st_products metric).

(** The constructor calls that make "one Camera Adapter per online
    device" and "one Sensor Adapter per (online device, metric) pair", in
    order, each with what it gives. *)
Definition cameras_for (ffmpeg_arguments : string)
    (l : list (string * Location * Device))
    : list (outcome Camera.CanaryCamera) :=
  map (fun '(location_id, _, device) =>
         Camera.__init__ location_id device ffmpeg_arguments) l.

Definition sensors_for (l : list (string * Location * Device))
    : list (outcome CanarySensor) :=
  flat_map (fun '(_, location, device) =>
              map (fun metric => Sensor.__init__ metric location device)
                  (List.filter (supports device) SENSOR_TYPES)) l.

(** What a run of constructor calls leaves: the adapters, or the
    exception of the first call that raised. *)
Fixpoint collect {A : Type} (l : list (outcome A)) : outcome (list A) :=
  match l with
  | [] => Ok []
  | Ok a :: rest =>
      match collect rest with
      | Ok made => Ok (a :: made)
      | Raised e => Raised e
      end
  | Raised e :: _ => Raised e
  end.

(** The accumulator of a loop after it appended what a run of
    constructor calls made. *)
Definition appended {A : Type} (acc : list A) (calls : list (outcome A))
    : outcome (list A) :=
  match collect calls with
  | Ok made => Ok (acc ++ made)
  | Raised e => Raised e
  end.

(** The descriptor has a "name" entry, null or not. *)
Definition named (device : Device) : Prop :=
  is_Some (device_type device !! "name"%string).

(** The entry the camera holds once it has seen [e] at the head of the
    device's entry list: the one it held if that has the same id. *)
Definition held_event (seen : option Entry) (e : Entry) : Entry :=
  match seen with
  | Some ev => if entry_id ev =? entry_id e then ev else e
  | None => e
  end.

Definition first_thumbnail (ev : Entry) : option string :=
  match thumbnails ev with
  | t :: _ => Some (image_url t)
  | [] => None
  end.

(** The camera after a renewal that ran, and what the renewal did. *)
Definition renewed (w : Camera.World) (c : Camera.CanaryCamera)
    : Camera.CanaryCamera :=
  let session := Camera.get_live_stream_session w (Camera._device c) in
  Camera.set_throttle (Some (Camera.utcnow w))
    (Camera.set_live_stream_url (Camera.live_stream_url session)
       (Camera.set_live_stream_session (Some session) c)).

Definition renewal (c : Camera.CanaryCamera) : list Camera.event :=
  [Camera.SessionRequested (device_id (Camera._device c)); Camera.RenewStarted].

(** "times out or fails with a request or status error" *)
Definition fetch_failed (o : outcome Camera.Response) : bool :=
  match o with
  | Ok response => negb (Camera.is_success response)
  | Raised x => caught x [TimeoutException; RequestError; HTTPStatusError]
  end.

End Spec.

(** ** A household to try things on *)

Module Examples.

Import Sensor Camera.

(** What a constructor call that returned has made. *)
Definition built {A : Type} (o : outcome A)
    : match o with Ok _ => A | Raised _ => exn end :=
  match o with
  | Ok a => a
  | Raised e => e
  end.

Definition porch : Device :=
  {| device_id := 1; name := "Porch"; is_online := true;
     device_type := {[ "name"%string := Some CANARY_PRO ]} |}.

Definition garage : Device :=
  {| device_id := 2; name := "Garage"; is_online := false;
     device_type := {[ "name"%string := Some CANARY_FLEX ]} |}.

Definition attic : Device :=
  {| device_id := 3; name := "Attic"; is_online := true;
     device_type := {[ "name"%string := Some CANARY_VIEW ]} |}.

Definition home : Location :=
  {| location_name := "Home"; is_recording := false;
     devices := [porch; garage; attic] |}.

Definition entry5 : Entry :=
  {| entry_id := 5; start_time := 1700000000;
     thumbnails := [{| image_url := "https://t/5.jpg" |}] |}.

Definition entry6 : Entry :=
  {| entry_id := 6; start_time := 1700000600;
     thumbnails := [{| image_url := "https://t/6.jpg" |}] |}.

Definition entry7 : Entry :=
  {| entry_id := 7; start_time := 1700001200; thumbnails := [] |}.

(** The porch has the given entries and one air quality reading, if any;
    the attic has three entries and the garage none at all. *)
Definition snapshot (porch_entries : list Entry) (air : option float) : CanaryData :=
  {| locations := [("home"%string, home)];
     entries := {[ 1 := porch_entries; 3 := [entry7; entry6; entry5] ]};
     readings :=
       {[ 1 := [ {| sensor_type := Some TEMPERATURE; value := Some 21.4999%float |};
                 {| sensor_type := Some AIR_QUALITY; value := air |};
                 {| sensor_type := Some AIR_QUALITY; value := Some 0.99%float |} ];
          3 := [ {| sensor_type := Some WIFI; value := Some (-61)%float |} ] ]} |}.

Definition metric (n : nat) : SensorTypeItem :=
  nth n SENSOR_TYPES
      {| st_name := ""; st_unit := None; st_icon := None;
         st_device_class := None; st_products := [] |}.

Definition temperature := metric 0.
Definition air_quality := metric 2.
Definition wifi := metric 3.
Definition last_entry_date := metric 5.
Definition entries_captured_today := metric 6.

Definition jpeg : list byte := [xff; xd8; xff; xd9].
Definition frame : list byte := [xff; xd8; x00; xff; xd9].

(** A request at time [now] against [snapshot]: the thumbnail server
    answers [reply], the vendor hands out a session with [live], and the
    transcoder grabs [grabbed] and streams until [proxied]. *)
Definition world (snapshot : CanaryData) (now : Z) (reply : outcome Response)
    (live : option string) (grabbed : option (list byte))
    (proxied : outcome StreamResponse) : World :=
  {| data := snapshot;
     utcnow := now;
     client_get := fun _ => reply;
     get_live_stream_session := fun _ => {| live_stream_url := live |};
     async_get_image := fun _ _ _ _ => grabbed;
     open_camera := fun _ _ => Ok tt;
     get_reader := Ok 1;
     async_aiohttp_proxy_stream := fun _ _ => proxied |}.

Definition served : outcome Response :=
  Ok {| is_success := true; content := jpeg |}.

Definition rtsp : option string := Some "rtsp://live/1"%string.

(** The porch camera as setup leaves it. *)
Definition fresh : state :=
  {| self := built (Camera.__init__ "home" porch "-pred 1"); trace := [] |}.

Definition after (request : World) (s : state) : state :=
  snd (call (async_camera_image None None) request s).

(** Four requests in a row: entry 5 is fetched; entry 6 arrives, its
    fetch times out and no frame can be grabbed; entry 6 goes away again,
    the fetch for entry 5 times out but a frame is grabbed; the server is
    back. *)
Definition request1 : World :=
  world (snapshot [entry5] None) 1000 served rtsp (Some frame) (Ok 2).
Definition request2 : World :=
  world (snapshot [entry6; entry5] None) 1100 (Raised TimeoutException)
        rtsp None (Ok 2).
Definition request3 : World :=
  world (snapshot [entry5] None) 1200 (Raised TimeoutException)
        rtsp (Some frame) (Ok 2).
Definition request4 : World :=
  world (snapshot [entry5] None) 1300 served rtsp (Some frame) (Ok 2).

(** A second location whose only device is online and has a descriptor
    without a name. *)
Definition shed : Device :=
  {| device_id := 9; name := "Shed"; is_online := true;
     device_type := {[ "firmware"%string := Some "1.2"%string ]} |}.

Definition yard : Location :=
  {| location_name := "Yard"; is_recording := false; devices := [shed] |}.

Definition with_yard : CanaryData :=
  {| locations := [("home"%string, home); ("yard"%string, yard)];
     entries := ∅;
     readings := ∅ |}.

Definition state1 : state := after request1 fresh.
Definition state2 : state := after request2 state1.
Definition state3 : state := after request3 state2.
Definition state4 : state := after request4 state3.

End Examples.

(** ** The rest of the camera entity *)

Module CameraEntity.

Import Camera.
Local Open Scope prog_scope.

(** [d[k]] on a dict with string keys, kept as the list of its items. *)
Fixpoint getitem_items {V : Type} (d : list (string * V)) (k : string)
    : outcome V :=
  match d with
  | [] => Raised KeyError
  | (k', v) :: rest => if String.eqb k' k then Ok v else getitem_items rest k
  end.

Definition location : prog Location Location :=
  let* me := this in
  let* w := ask in
  let* found := lift (getitem_items (locations (data w)) (_location_id me)) in
  return_ found.

Definition motion_detection_enabled : prog bool bool :=
  let* found := invoke location in
  return_ (negb (is_recording found)).

Definition is_recording : prog bool bool :=
  let* found := invoke location in
  return_ (is_recording found).

(** The camera with the unique id [__init__] gives it,
    [str(device.device_id)]. *)
Record CanaryCameraEntity : Type := {
  camera : CanaryCamera;
  _attr_unique_id : string
}.

Definition __init__ (location_id : string) (device : Device)
    (ffmpeg_args : string) : outcome CanaryCameraEntity :=
  match Camera.__init__ location_id device ffmpeg_args with
  | Ok made =>
      Ok {| camera := made; _attr_unique_id := pretty (device_id device) |}
  | Raised x => Raised x
  end.

Definition async_setup_entry (data : CanaryData) (ffmpeg_arguments : string)
    : outcome (list CanaryCameraEntity) :=
  for_each (locations data) (fun cameras '(location_id, location) =>
    for_each (devices location) (fun cameras device =>
      if is_online device
      then list_append cameras (__init__ location_id device ffmpeg_arguments)
      else Ok cameras)
      cameras)
    [].

End CameraEntity.

(** ** The rest of the sensor entity *)

Module SensorEntity.

Import Sensor.

(** The sensor with the unique id [__init__] gives it,
    [f"{device.device_id}_{sensor_type[0]}"]. *)
Record CanarySensorEntity : Type := {
  sensor : CanarySensor;
  _attr_unique_id : string
}.

Definition __init__ (sensor_type : SensorTypeItem) (location : Location)
    (device : Device) : outcome CanarySensorEntity :=
  match Sensor.__init__ sensor_type location device with
  | Ok made =>
      Ok {| sensor := made;
            _attr_unique_id :=
              pretty (device_id device) +:+ "_" +:+ st_name sensor_type |}
  | Raised x => Raised x
  end.

Definition async_setup_entry (data : CanaryData)
    : outcome (list CanarySensorEntity) :=
  for_each (locations data) (fun sensors '(_, location) =>
    for_each (devices location) (fun sensors device =>
      if is_online device then
        let device_type := device_type device in
        for_each SENSOR_TYPES (fun sensors sensor_type =>
          if name_in (dict_get device_type "name") (st_products sensor_type)
          then list_append sensors (__init__ sensor_type location device)
          else Ok sensors)
          sensors
      else Ok sensors)
      sensors)
    [].

End SensorEntity.

(** ** More vocabulary *)

Module More.

Import Camera Spec.

(** The cached image URL belongs to the entry the camera holds, and
    without an entry there is neither a URL nor a recorded image id. *)
Definition coherent (c : CanaryCamera) : Prop :=
  match _last_event c with
  | Some ev => _image_url c = first_thumbnail ev
  | None => _image_url c = None /\ _last_image_id c = None
  end.

(** The fields of the still-image cache. *)
Definition image_cache (c : CanaryCamera)
    : option (list byte) * option Entry * option Z * option string :=
  (_image c, _last_event c, _last_image_id c, _image_url c).

(** How many rows of the table list a model name. *)
Definition sensors_of_model (model : option string) : nat :=
  length (List.filter (fun metric => Sensor.name_in model (Sensor.st_products metric))
                      Sensor.SENSOR_TYPES).

Definition online_devices (data : CanaryData) : list Device :=
  map snd (List.filter online (device_occurrences data)).

(** No "_" in a string. *)
Fixpoint no_underscore (s : string) : Prop :=
  match s with
  | EmptyString => True
  | String c rest => c <> "_"%char /\ no_underscore rest
  end.

(** A household with two locations, and a world whose transcoder cannot
    be started. *)
Definition door : Device :=
  {| device_id := 4; name := "Door"; is_online := true;
     device_type := {[ "name"%string := None ]} |}.

Definition cabin : Location :=
  {| location_name := "Cabin"; is_recording := true; devices := [door] |}.

Definition two_homes : CanaryData :=
  {| locations := [("home"%string, Examples.home); ("cabin"%string, cabin)];
     entries := ∅;
     readings := ∅ |}.

Definition stuck : World :=
  {| data := two_homes;
     utcnow := 5000;
     client_get := fun _ => Raised KeyError;
     get_live_stream_session := fun _ => {| live_stream_url := Examples.rtsp |};
     async_get_image := fun _ _ _ _ => None;
     open_camera := fun _ _ => Raised CancelledError;
     get_reader := Ok 1;
     async_aiohttp_proxy_stream := fun _ _ => Ok 2 |}.

(** The door camera as setup leaves it, and the same camera after its
    location was sold. *)
Definition door_camera : state :=
  {| self := Examples.built (Camera.__init__ "cabin" door "-pred 1");
     trace := [] |}.

Definition sold_camera : state :=
  {| self := Examples.built (Camera.__init__ "sold" door "-pred 1");
     trace := [] |}.

End More.

(** ** Statements and calls *)

Section ProgFacts.

Context {E S R R' : Type}.

Lemma invoke_call (p : prog (E:=E) (S:=S) R R) (e : E) (s : S) :
  invoke (R':=R') p e s =
    match call p e s with
    | (Ok r, s') => (Normal r, s')
    | (Raised x, s') => (Raise x, s')
    end.
Proof.
  unfold invoke, call. destruct (p e s) as [[a|r|x] s']; reflexivity.
Qed.

End ProgFacts.

(** ** Comparisons of floats *)



(** ** Constructors *)

(** From a constructor call that returned, the object it made. *)
Ltac made H :=
  cbv beta zeta delta [Sensor.__init__ Camera.__init__ getitem_str] in H;
  match type of H with
  | context [match ?o with Some _ => _ | None => _ end] =>
      let model := fresh "model" in
      let Hmodel := fresh "Hmodel" in
      destruct o as [model|] eqn:Hmodel;
      cbv beta iota in H; [injection H as H|discriminate H]
  end.

(** ** Sensor adapter *)

Section SensorFacts.

Import Sensor Spec.

Variables (data : CanaryData) (self : CanarySensor).

Lemma call_reading :
  call (reading self) data tt =
    (Ok (match readings data !! _device_id self with
         | Some l => (fun v => round v SENSOR_VALUE_PRECISION)
                       <$> next_value l (_canary_type self)
         | None => None
         end), tt).
Proof.
  unfold call, reading, bind, ask, try_except, lift, getitem_dict.
  destruct (readings data !! _device_id self) as [l|]; simpl; [|reflexivity].
  destruct (next_value l (_canary_type self)); reflexivity.
Qed.

End SensorFacts.

Section SensorValues.

Import Sensor Spec.

Variables (data : CanaryData) (self : CanarySensor).

Lemma call_native_value :
  call (native_value self) data tt =
    (Ok (if opt_str_eqb (_canary_data_type self) "reading" then
           match readings data !! _device_id self with
           | Some l => (fun v => SVfloat (round v SENSOR_VALUE_PRECISION))
                         <$> next_value l (_canary_type self)
           | None => None
           end
         else if opt_str_eqb (_canary_data_type self) "entry" then
           match entries data !! _device_id self with
           | Some l =>
               if String.eqb (st_name (_sensor_type self)) "entries_captured_today"
               then Some (SVint (Z.of_nat (length l)))
               else if String.eqb (st_name (_sensor_type self)) "last_entry_date"
               then match l with
                    | e :: _ => Some (SVdatetime (start_time e))
                    | [] => None
                    end
               else None
           | None => None
           end
         else None), tt).
Proof.
  unfold call, native_value, bind.
  destruct (opt_str_eqb (_canary_data_type self) "reading").
  { rewrite invoke_call, call_reading.
    destruct (readings data !! _device_id self) as [l|]; [|reflexivity].
    destruct (next_value l (_canary_type self)); reflexivity. }
  cbn [ret].
  destruct (opt_str_eqb (_canary_data_type self) "entry"); [|reflexivity].
  unfold ask, try_except, lift, getitem_dict, getitem_list.
  destruct (entries data !! _device_id self) as [l|]; [|reflexivity].
  cbn.
  destruct (String.eqb (st_name (_sensor_type self)) "entries_captured_today");
    [reflexivity|].
  destruct (String.eqb (st_name (_sensor_type self)) "last_entry_date");
    [|reflexivity].
  destruct l; reflexivity.
Qed.

Lemma call_extra_state_attributes :
  call (extra_state_attributes self) data tt =
    (Ok (match String.eqb (st_name (_sensor_type self)) "air_quality",
               fst (call (reading self) data tt) with
         | true, Ok (Some x) =>
             Some {[ ATTR_AIR_QUALITY :=
                       if (x <=? 0.4)%float then STATE_AIR_QUALITY_VERY_ABNORMAL
                       else if (x <=? 0.59)%float then STATE_AIR_QUALITY_ABNORMAL
                       else STATE_AIR_QUALITY_NORMAL ]}
         | _, _ => None
         end), tt).
Proof.
  unfold call at 1. unfold extra_state_attributes, bind.
  rewrite invoke_call. destruct (call (reading self) data tt) as [[[x|]|] []] eqn:Hr;
    cbn [fst]; try (rewrite call_reading in Hr; discriminate);
    destruct (String.eqb (st_name (_sensor_type self)) "air_quality"); reflexivity.
Qed.

(** The sensor's accessors absorb every lookup miss. *)
Lemma sensor_accessors_never_raise :
  (exists r, call (reading self) data tt = (Ok r, tt)) /\
  (exists v, call (native_value self) data tt = (Ok v, tt)) /\
  (exists a, call (extra_state_attributes self) data tt = (Ok a, tt)).
Proof.
  rewrite call_native_value, call_extra_state_attributes, call_reading.
  repeat split; eexists; reflexivity.
Qed.

End SensorValues.

Section SensorKinds.

Import Sensor Spec.

Lemma next_value_first_of_kind (kind : SensorType) (l : list Reading) :
  next_value l (Some kind) =
    match first_of_kind kind l with
    | Some r => value r
    | None => None
    end.
Proof.
  induction l as [|r l IH]; simpl; [reflexivity|].
  destruct (kind_eqb (sensor_type r) (Some kind)); [reflexivity|exact IH].
Qed.

Lemma init_reading_metric (metric : SensorTypeItem) (location : Location)
    (device : Device) (self : CanarySensor) (kind : SensorType) :
  __init__ metric location device = Ok self ->
  reading_metric (st_name metric) = Some kind ->
  _canary_data_type self = Some "reading"%string /\
  _canary_type self = Some kind.
Proof.
  intros Hinit Hmetric. made Hinit. rewrite <- Hinit.
  cbn [_canary_data_type _canary_type]. unfold reading_metric in Hmetric.
  repeat match type of Hmetric with
         | context [String.eqb (st_name metric) ?n] =>
             revert Hmetric;
             destruct (String.eqb_spec (st_name metric) n) as [Hn|_];
             intros Hmetric; cbv beta iota in Hmetric;
             [injection Hmetric as <-; try rewrite Hn; split; reflexivity|]
         end.
  discriminate Hmetric.
Qed.

End SensorKinds.

Section SensorClaims.

Import Sensor Spec.

Variables (metric : SensorTypeItem) (location : Location) (device : Device).
Variable data : CanaryData.

(** The sensor that [__init__] made for the metric and the device. *)
Variable self : CanarySensor.
Hypothesis Hinit : __init__ metric location device = Ok self.


(** C4: an entries_captured_today sensor reports the length of the
    device's entry list (0 for an empty one) and nothing when the device
    has no entry list; a last_entry_date sensor reports the start time of
    the first entry and nothing when the list is empty or missing. *)
Theorem native_value_entry_metrics :
  let state := fst (call (native_value self) data tt) in
  (st_name metric = "entries_captured_today"%string ->
   (forall l, entries data !! device_id device = Some l ->
              state = Ok (Some (SVint (Z.of_nat (length l))))) /\
   (entries data !! device_id device = Some [] -> state = Ok (Some (SVint 0))) /\
   (entries data !! device_id device = None -> state = Ok None)) /\
  (st_name metric = "last_entry_date"%string ->
   (forall e l, entries data !! device_id device = Some (e :: l) ->
                state = Ok (Some (SVdatetime (start_time e)))) /\
   (entries data !! device_id device = Some [] -> state = Ok None) /\
   (entries data !! device_id device = None -> state = Ok None)).
Proof.
  cbn zeta. rewrite call_native_value. cbn [fst].
  pose proof Hinit as Hself. made Hself. rewrite <- Hself.
  cbn [_sensor_type _device_id _canary_data_type].
  split; intros Hname; rewrite Hname; cbn; repeat split; intros;
    match goal with H : _ !! _ = _ |- _ => rewrite H end; reflexivity.
Qed.

(** C5: a temperature, humidity, air_quality, wifi or battery sensor
    reports the value of the first reading of its kind in the device's
    reading list, rounded to 2 decimal places, and nothing when the
    device has no reading list or the list has no reading of that kind. *)
Theorem native_value_reading_metrics (kind : SensorType) :
  reading_metric (st_name metric) = Some kind ->
  let state := fst (call (native_value self) data tt) in
  (forall l r, readings data !! device_id device = Some l ->
               first_of_kind kind l = Some r ->
               state = Ok ((fun v => SVfloat (rounded v)) <$> value r)) /\
  (forall l, readings data !! device_id device = Some l ->
             first_of_kind kind l = None -> state = Ok None) /\
  (readings data !! device_id device = None -> state = Ok None).
Proof.
  intros [Hdata Hkind]%(init_reading_metric metric location device self kind Hinit).
  cbn zeta. rewrite call_native_value. cbn [fst].
  rewrite Hdata, Hkind. cbn [opt_str_eqb String.eqb Ascii.eqb Bool.eqb].
  pose proof Hinit as Hself. made Hself. rewrite <- Hself.
  cbn [_device_id]. repeat split.
  - intros l r -> Hr. rewrite next_value_first_of_kind, Hr. reflexivity.
  - intros l -> Hr. rewrite next_value_first_of_kind, Hr. reflexivity.
  - intros ->. reflexivity.
Qed.

End SensorClaims.

(** ** Camera adapter: the image state *)

(** Runs a method body as far as its lookups allow; [py_step] stops at the
    methods it invokes. *)
Ltac py_step :=
  cbv beta iota zeta delta
    [call bind ret return_ raise ask get modify lift try_except
     try_finally handler_for caught List.existsb isinstance exn_eqb
     getitem_dict getitem_list deref
     Camera.update Camera.emit Camera.this];
  cbn [Camera.self Camera.trace].

Ltac py_run :=
  cbv beta iota zeta delta
    [call invoke bind ret return_ raise ask get modify lift try_except
     try_finally handler_for caught List.existsb isinstance exn_eqb
     getitem_dict getitem_list deref
     Camera.update Camera.emit Camera.this];
  cbn [Camera.self Camera.trace].

Section CameraImageState.

Import Camera Spec.

Variables (w : World) (s : state).

Let device := device_id (_device (self s)).

Lemma check_device_missing :
  entries (data w) !! device = None ->
  call _check_for_new_image w s = (Ok tt, s).
Proof.
  subst device. intros H. unfold _check_for_new_image. py_run.
  destruct (_last_event (self s)); rewrite H; reflexivity.
Qed.

Lemma check_no_entry :
  entries (data w) !! device = Some [] ->
  call _check_for_new_image w s = (Raised IndexError, s).
Proof.
  subst device. intros H. unfold _check_for_new_image. py_run.
  destruct (_last_event (self s)); rewrite H; reflexivity.
Qed.

Lemma check_entry (e : Entry) (rest : list Entry) :
  entries (data w) !! device = Some (e :: rest) ->
  let ev := held_event (_last_event (self s)) e in
  call _check_for_new_image w s =
    (Ok tt,
     {| self :=
          set_image_url (first_thumbnail ev)
            (set_image (if id_ne (_last_image_id (self s)) (entry_id ev)
                        then None else _image (self s))
               (set_last_event (Some ev) (self s)));
        trace := trace s |}).
Proof.
  subst device. intros H. destruct s as [c t]. destruct c.
  unfold _check_for_new_image, held_event, first_thumbnail. py_run.
  cbn in *. rewrite H. cbn.
  destruct _last_event0 as [seen|]; cbn.
  - destruct (entry_id seen =? entry_id e); cbn;
      destruct (id_ne _last_image_id0 _); cbn;
      destruct (thumbnails _); reflexivity.
  - destruct (id_ne _last_image_id0 _); cbn;
      destruct (thumbnails _); reflexivity.
Qed.

(** The update absorbs a missing device and a missing thumbnail; an empty
    entry list is the one lookup miss it lets through. *)
Lemma check_outcomes :
  match entries (data w) !! device with
  | None => call _check_for_new_image w s = (Ok tt, s)
  | Some [] => call _check_for_new_image w s = (Raised IndexError, s)
  | Some (_ :: _) => fst (call _check_for_new_image w s) = Ok tt
  end.
Proof.
  destruct (entries (data w) !! device) as [[|e rest]|] eqn:He.
  - now apply check_no_entry.
  - now rewrite (check_entry e rest He).
  - now apply check_device_missing.
Qed.

End CameraImageState.

(** ** Camera adapter: renewal, fetch and live view *)

Section CameraBlocks.

Import Camera Spec.

Variables (w : World) (s : state).

Lemma call_renew :
  call renew_live_stream_session w s =
    (Ok tt,
     if due MIN_TIME_BETWEEN_SESSION_RENEW (_throttle (self s)) (utcnow w)
     then {| self := renewed w (self s);
             trace := trace s ++ renewal (self s) |}
     else s).
Proof.
  unfold renew_live_stream_session, Throttle. py_run.
  destruct (due _ _ _); [|reflexivity].
  unfold renewed, renewal. rewrite <- app_assoc. reflexivity.
Qed.

Lemma fetch_not_attempted :
  is_None (_image (self s)) && truthy_str (_image_url (self s)) = false ->
  fetch_entry_image w s = (Normal tt, s).
Proof.
  intros H. unfold fetch_entry_image. py_run. rewrite H. reflexivity.
Qed.

Section Attempt.

Variable url : string.
Hypothesis no_image : _image (self s) = None.
Hypothesis has_url : _image_url (self s) = Some url.
Hypothesis url_not_empty : url <> ""%string.

Lemma fetch_attempted :
  is_None (_image (self s)) && truthy_str (_image_url (self s)) = true.
Proof.
  rewrite no_image, has_url. cbn.
  destruct (String.eqb_spec url ""); [contradiction|reflexivity].
Qed.

Lemma fetch_succeeds (response : Response) :
  client_get w url = Ok response ->
  is_success response = true ->
  fetch_entry_image w s =
    (Normal tt,
     {| self := set_last_image_id (entry_id <$> _last_event (self s))
                  (set_image (Some (content response)) (self s));
        trace := trace s ++ [HttpGet url 10] |}).
Proof.
  intros Hget Hok. unfold fetch_entry_image. py_run.
  rewrite fetch_attempted, has_url. cbn [default]. unfold id. rewrite Hget.
  unfold raise_for_status. rewrite Hok. py_run.
  destruct s as [c t], c; reflexivity.
Qed.

Lemma fetch_fails :
  fetch_failed (client_get w url) = true ->
  fetch_entry_image w s =
    (Normal tt, {| self := self s; trace := trace s ++ [HttpGet url 10] |}).
Proof.
  intros Hfail. unfold fetch_entry_image. py_run.
  rewrite fetch_attempted, has_url. cbn [default]. unfold id.
  destruct (client_get w url) as [response|x]; cbn in Hfail.
  - unfold raise_for_status.
    destruct (is_success response); [discriminate|reflexivity].
  - destruct x; try discriminate; reflexivity.
Qed.

End Attempt.

Lemma live_view (width height : option Z) :
  grab_live_view width height w s =
    if is_None (_image (self s)) then
      let s1 := snd (call renew_live_stream_session w s) in
      let live := _live_stream_url (self s1) in
      if truthy_str live then
        let frame := async_get_image w (default "" live)
                       (_ffmpeg_arguments (self s1)) width height in
        (Normal tt,
         {| self := if truthy_bytes frame then set_image frame (self s1)
                    else self s1;
            trace := trace s1 ++
              [ImageGrabbed (default "" live) (_ffmpeg_arguments (self s1))] |})
      else (Return None, s1)
    else (Normal tt, s).
Proof.
  rewrite call_renew. unfold grab_live_view. py_step.
  destruct (_image (self s)) eqn:Himage; cbn [is_None]; [reflexivity|].
  rewrite invoke_call, call_renew. cbn [snd].
  destruct (due _ _ _); cbn [self trace].
  - unfold renewed at 1 2 3. cbn. 
    destruct (truthy_str _); [|reflexivity].
    rewrite Himage. cbn. destruct (truthy_bytes _); reflexivity.
  - destruct (truthy_str _); [|reflexivity].
    rewrite Himage. cbn. destruct (truthy_bytes _); reflexivity.
Qed.

Lemma fetch_issues_get (url : string) :
  _image (self s) = None ->
  _image_url (self s) = Some url ->
  url <> ""%string ->
  exists c s',
    fetch_entry_image w s = (c, s') /\
    trace s' = trace s ++ [HttpGet url 10] /\
    forall r, c <> Return r.
Proof.
  intros Himage Hurl Hnonempty. unfold fetch_entry_image. py_run.
  rewrite (fetch_attempted url Himage Hurl Hnonempty), Hurl.
  cbn [default]. unfold id.
  destruct (client_get w url) as [response|x].
  - unfold raise_for_status. destruct (is_success response);
      eexists _, _; (split; [reflexivity|]); split; try reflexivity; discriminate.
  - destruct x; eexists _, _; (split; [reflexivity|]); split;
      try reflexivity; discriminate.
Qed.

Lemma fetch_changes_on_success (c : completion (option (list byte)) unit)
    (s' : state) :
  fetch_entry_image w s = (c, s') ->
  _image (self s') <> _image (self s) \/
    _last_image_id (self s') <> _last_image_id (self s) ->
  exists url response,
    _image_url (self s) = Some url /\
    client_get w url = Ok response /\
    is_success response = true.
Proof.
  unfold fetch_entry_image. py_run.
  destruct (is_None (_image (self s)) && truthy_str (_image_url (self s)))
    eqn:Hgo; [|intros [= <- <-] [H|H]; contradiction].
  apply andb_prop in Hgo as [_ Hurl].
  destruct (_image_url (self s)) as [url|]; [|discriminate].
  cbn [default]. unfold id.
  destruct (client_get w url) as [response|x] eqn:Hget.
  - unfold raise_for_status. destruct (is_success response) eqn:Hok.
    + intros _ _. eauto.
    + intros [= <- <-] [H|H]; contradiction.
  - destruct x; intros [= <- <-] [H|H]; contradiction.
Qed.

Lemma live_view_keeps (width height : option Z)
    (c : completion (option (list byte)) unit) (s' : state) :
  grab_live_view width height w s = (c, s') ->
  _device (self s') = _device (self s) /\
  _last_event (self s') = _last_event (self s) /\
  _last_image_id (self s') = _last_image_id (self s) /\
  _image_url (self s') = _image_url (self s) /\
  (exists events, trace s' = trace s ++ events) /\
  (forall x, c <> Raise x).
Proof.
  rewrite live_view. destruct (is_None (_image (self s))).
  - rewrite call_renew. cbn [snd].
    destruct (due _ _ _); cbn [self trace];
      destruct (truthy_str _); try destruct (truthy_bytes _);
      intros [= <- <-]; destruct s as [me t], me; cbn;
      repeat (split; [reflexivity|]);
      (split; [|discriminate]);
      rewrite <- ?app_assoc; try (eexists; reflexivity);
      exists []; now rewrite app_nil_r.
  - intros [= <- <-]. repeat (split; [reflexivity|]).
    split; [|discriminate]. exists []. now rewrite app_nil_r.
Qed.

End CameraBlocks.

(** ** Setup: which adapters are created *)

Section Setup.

Import Spec.

(** A loop that only ever appends to its accumulator. *)
Lemma fold_left_appends {A B : Type} (step : list B -> A -> list B)
    (added : A -> list B) (l : list A) :
  (forall acc x, step acc x = acc ++ added x) ->
  forall acc, fold_left step l acc = acc ++ flat_map added l.
Proof.
  intros Hstep. induction l as [|x l IH]; intros acc; simpl.
  - now rewrite app_nil_r.
  - rewrite IH, Hstep, <- app_assoc. reflexivity.
Qed.

Lemma flat_map_filter_map {A B : Type} (p : A -> bool) (f : A -> B)
    (l : list A) :
  flat_map (fun x => if p x then [f x] else []) l = map f (List.filter p l).
Proof.
  induction l as [|x l IH]; simpl; [reflexivity|].
  destruct (p x); simpl; now rewrite IH.
Qed.

Lemma flat_map_filter {A B : Type} (p : A -> bool) (f : A -> list B)
    (l : list A) :
  flat_map (fun x => if p x then f x else []) l = flat_map f (List.filter p l).
Proof.
  induction l as [|x l IH]; simpl; [reflexivity|].
  destruct (p x); simpl; now rewrite IH.
Qed.

Lemma flat_map_flat_map {A B C : Type} (f : A -> list B) (g : B -> list C)
    (l : list A) :
  flat_map g (flat_map f l) = flat_map (fun x => flat_map g (f x)) l.
Proof.
  induction l as [|x l IH]; simpl; [reflexivity|].
  now rewrite flat_map_app, IH.
Qed.

Lemma flat_map_map {A B C : Type} (f : A -> B) (g : B -> list C) (l : list A) :
  flat_map g (map f l) = flat_map (fun x => g (f x)) l.
Proof.
  induction l as [|x l IH]; simpl; [reflexivity|]. now rewrite IH.
Qed.

Lemma collect_app {A : Type} (l1 l2 : list (outcome A)) :
  collect (l1 ++ l2) =
    match collect l1 with
    | Ok made => appended made l2
    | Raised e => Raised e
    end.
Proof.
  unfold appended. induction l1 as [|[a|e] l1 IH]; simpl.
  - destruct (collect l2); reflexivity.
  - rewrite IH. destruct (collect l1); [destruct (collect l2)|]; reflexivity.
  - reflexivity.
Qed.

Lemma collect_Ok {A : Type} (l : list (outcome A)) (made : list A) :
  collect l = Ok made <-> l = map Ok made.
Proof.
  revert made. induction l as [|[a|e] l IH]; intros made; simpl.
  - split; [intros [= <-]; reflexivity|].
    destruct made; [reflexivity|discriminate].
  - destruct (collect l) as [made'|e] eqn:Hc.
    + split.
      * intros [= <-]. simpl. f_equal. now apply IH.
      * destruct made as [|a' made]; [discriminate|]. intros [= -> Hl].
        apply IH in Hl. congruence.
    + split; [discriminate|].
      destruct made as [|a' made]; [discriminate|]. intros [= -> Hl].
      apply IH in Hl. congruence.
  - split; [discriminate|]. destruct made; discriminate.
Qed.

Lemma collect_all_made {A : Type} (l : list (outcome A)) :
  (forall o, In o l -> exists a, o = Ok a) -> exists made, l = map Ok made.
Proof.
  induction l as [|o l IH]; intros Hall.
  - now exists [].
  - destruct (Hall o (or_introl eq_refl)) as [a ->].
    destruct IH as [made ->]; [intros o Ho; apply Hall; now right|].
    now exists (a :: made).
Qed.

Lemma collect_raises {A : Type} (l : list (outcome A)) (e : exn) :
  In (Raised e) l -> (forall e', In (Raised e') l -> e' = e) ->
  collect l = Raised e.
Proof.
  induction l as [|[a|e'] l IH]; simpl; intros Hin Hall.
  - destruct Hin.
  - destruct Hin as [Hin|Hin]; [discriminate|]. rewrite IH; auto.
  - f_equal. apply Hall. now left.
Qed.

(** A loop that only ever appends what its constructor calls make. *)
Lemma for_each_appends {A B : Type} (step : list B -> A -> outcome (list B))
    (calls : A -> list (outcome B)) (l : list A) :
  (forall acc x, step acc x = appended acc (calls x)) ->
  forall acc, for_each l step acc = appended acc (flat_map calls l).
Proof.
  intros Hstep. induction l as [|x l IH]; intros acc; simpl.
  - unfold appended. simpl. now rewrite app_nil_r.
  - rewrite Hstep. unfold appended at 2. rewrite collect_app.
    unfold appended at 1.
    destruct (collect (calls x)) as [made|e]; [|reflexivity].
    rewrite IH. unfold appended.
    destruct (collect (flat_map calls l)); [|reflexivity].
    now rewrite <- app_assoc.
Qed.

Lemma appended_nil {A : Type} (calls : list (outcome A)) :
  appended [] calls = collect calls.
Proof. unfold appended. destruct (collect calls); reflexivity. Qed.

Lemma appended_none {A : Type} (acc : list A) : appended acc [] = Ok acc.
Proof. unfold appended. simpl. now rewrite app_nil_r. Qed.

Lemma appended_one {A : Type} (acc : list A) (o : outcome A) :
  appended acc [o] = list_append acc o.
Proof. unfold appended, list_append. destruct o; reflexivity. Qed.

(** The constructors raise nothing but the KeyError of a descriptor
    without a name. *)
Lemma camera_init (location_id : string) (device : Device)
    (ffmpeg_args : string) :
  match Camera.__init__ location_id device ffmpeg_args with
  | Ok _ => named device
  | Raised e => e = KeyError /\ ~ named device
  end.
Proof.
  unfold Camera.__init__, getitem_str, named.
  destruct (device_type device !! "name"%string) as [model|].
  - eauto.
  - split; [reflexivity|]. intros [model [=]].
Qed.

Lemma sensor_init (metric : Sensor.SensorTypeItem) (location : Location)
    (device : Device) :
  match Sensor.__init__ metric location device with
  | Ok _ => named device
  | Raised e => e = KeyError /\ ~ named device
  end.
Proof.
  cbv beta zeta delta [Sensor.__init__ getitem_str named].
  destruct (device_type device !! "name"%string) as [model|].
  - eauto.
  - split; [reflexivity|]. intros [model [=]].
Qed.

Lemma supported_named (device : Device) (metric : Sensor.SensorTypeItem) :
  supports device metric = true -> named device.
Proof.
  unfold supports, dict_get, named.
  destruct (device_type device !! "name"%string) as [model|]; [eauto|].
  discriminate.
Qed.

(** The sensor constructor is only called where it cannot raise. *)
Lemma sensors_made (l : list (string * Location * Device)) :
  exists sensors, sensors_for l = map Ok sensors.
Proof.
  apply collect_all_made. intros o Ho. unfold sensors_for in Ho.
  apply in_flat_map in Ho as [[[location_id location] device] [_ Ho]].
  apply in_map_iff in Ho as [metric [<- Hm]].
  apply filter_In in Hm as [_ Hsup%supported_named].
  pose proof (sensor_init metric location device) as Hinit.
  destruct (Sensor.__init__ metric location device) as [sensor|e]; [eauto|].
  now destruct Hinit.
Qed.

Variable data : CanaryData.

Lemma camera_setup (ffmpeg_arguments : string) :
  Camera.async_setup_entry data ffmpeg_arguments =
    collect (cameras_for ffmpeg_arguments
               (List.filter online (device_occurrences data))).
Proof.
  unfold Camera.async_setup_entry, cameras_for, device_occurrences.
  rewrite (for_each_appends _
    (fun o : string * Location =>
       map (fun device => Camera.__init__ (fst o) device ffmpeg_arguments)
           (List.filter is_online (devices (snd o))))).
  - rewrite appended_nil. f_equal.
    rewrite <- flat_map_filter_map, flat_map_flat_map.
    apply flat_map_ext. intros [location_id location].
    rewrite flat_map_map, <- flat_map_filter_map. reflexivity.
  - intros acc [location_id location].
    rewrite (for_each_appends _
      (fun device => if is_online device
                     then [Camera.__init__ location_id device ffmpeg_arguments]
                     else [])).
    + now rewrite flat_map_filter_map.
    + intros acc' device. destruct (is_online device);
        [now rewrite appended_one|now rewrite appended_none].
Qed.

Lemma sensor_setup :
  Sensor.async_setup_entry data =
    collect (sensors_for (List.filter online (device_occurrences data))).
Proof.
  unfold Sensor.async_setup_entry, sensors_for, device_occurrences.
  rewrite (for_each_appends _
    (fun o : string * Location =>
       flat_map (fun device =>
                   map (fun metric => Sensor.__init__ metric (snd o) device)
                       (List.filter (supports device) Sensor.SENSOR_TYPES))
                (List.filter is_online (devices (snd o))))).
  - rewrite appended_nil. f_equal.
    rewrite <- flat_map_filter, flat_map_flat_map.
    apply flat_map_ext. intros [location_id location].
    rewrite flat_map_map, <- flat_map_filter. reflexivity.
  - intros acc [location_id location].
    rewrite (for_each_appends _
      (fun device =>
         if is_online device
         then map (fun metric => Sensor.__init__ metric location device)
                  (List.filter (supports device) Sensor.SENSOR_TYPES)
         else [])).
    + now rewrite flat_map_filter.
    + intros acc' device. destruct (is_online device);
        [|now rewrite appended_none].
      cbv zeta.
      rewrite (for_each_appends _
        (fun metric => if supports device metric
                       then [Sensor.__init__ metric location device]
                       else [])).
      * now rewrite flat_map_filter_map.
      * intros acc'' metric. unfold supports.
        destruct (Sensor.name_in _ _);
          [now rewrite appended_one|now rewrite appended_none].
Qed.

Lemma metrics_listed_once : NoDup (map Sensor.st_name Sensor.SENSOR_TYPES).
Proof. apply (bool_decide_unpack _). vm_compute. reflexivity. Qed.

(** C6: sensor setup always returns, and it has made the sensors of the
    online devices of the snapshot, device by device in the order the
    snapshot lists them: one sensor for each metric of the table that
    lists the device's model name, each metric being in the table once.
    So every sensor belongs to an online device whose model its metric
    lists, and an offline device gets none.  Camera setup calls the
    constructor once for each online device, in the same order.  When the
    descriptor of every online device has a name entry it returns one
    camera for each of them and none for an offline device.  When the
    descriptor of an online device has no name entry, the KeyError of the
    constructor ends setup: it creates no camera at all, while sensor
    setup reads the same descriptor with [get] and goes on. *)
Theorem setup_creates_adapters (ffmpeg_arguments : string) :
  let found := List.filter online (device_occurrences data) in
  (exists sensors,
     Sensor.async_setup_entry data = Ok sensors /\
     map Ok sensors = sensors_for found /\
     forall sensor, In sensor sensors ->
       exists location_id location device metric,
         In (location_id, location, device) (device_occurrences data) /\
         is_online device = true /\
         In metric Sensor.SENSOR_TYPES /\
         supports device metric = true /\
         Sensor.__init__ metric location device = Ok sensor) /\
  NoDup (map Sensor.st_name Sensor.SENSOR_TYPES) /\
  Camera.async_setup_entry data ffmpeg_arguments =
    collect (cameras_for ffmpeg_arguments found) /\
  ((forall o, In o found -> named (snd o)) ->
   exists cameras,
     Camera.async_setup_entry data ffmpeg_arguments = Ok cameras /\
     map Ok cameras = cameras_for ffmpeg_arguments found /\
     forall camera, In camera cameras ->
       exists location_id location device,
         In (location_id, location, device) (device_occurrences data) /\
         is_online device = true /\
         Camera.__init__ location_id device ffmpeg_arguments = Ok camera) /\
  ((exists o, In o found /\ ~ named (snd o)) ->
   Camera.async_setup_entry data ffmpeg_arguments = Raised KeyError).
Proof.
  cbn zeta. rewrite camera_setup, sensor_setup.
  set (found := List.filter online (device_occurrences data)).
  split; [|split; [exact metrics_listed_once|split; [reflexivity|split]]].
  - destruct (sensors_made found) as [sensors Hmade].
    exists sensors. split; [now apply collect_Ok|]. split; [easy|].
    intros sensor Hin. apply (in_map Ok) in Hin. rewrite <- Hmade in Hin.
    unfold sensors_for in Hin.
    apply in_flat_map in Hin as [[[location_id location] device] [Ho Hs]].
    apply filter_In in Ho as [Ho Hon].
    apply in_map_iff in Hs as [metric [Heq Hm]].
    apply filter_In in Hm as [Hm Hsup].
    exists location_id, location, device, metric. auto.
  - intros Hnamed.
    destruct (collect_all_made (cameras_for ffmpeg_arguments found))
      as [cameras Hmade].
    { intros o Ho. unfold cameras_for in Ho.
      apply in_map_iff in Ho as [[[location_id location] device] [<- Ho]].
      pose proof (camera_init location_id device ffmpeg_arguments) as Hinit.
      destruct (Camera.__init__ _ _ _) as [camera|e]; [eauto|].
      destruct Hinit as [_ []]. exact (Hnamed _ Ho). }
    exists cameras. split; [now apply collect_Ok|]. split; [easy|].
    intros camera Hin. apply (in_map Ok) in Hin. rewrite <- Hmade in Hin.
    unfold cameras_for in Hin.
    apply in_map_iff in Hin as [[[location_id location] device] [Heq Ho]].
    apply filter_In in Ho as [Ho Hon].
    exists location_id, location, device. auto.
  - intros [[[location_id location] device] [Ho Hmissing]].
    assert (Hraised : forall e camera_id camera_device,
              Camera.__init__ camera_id camera_device ffmpeg_arguments
                = Raised e -> e = KeyError).
    { intros e i d He. pose proof (camera_init i d ffmpeg_arguments) as Hinit.
      rewrite He in Hinit. tauto. }
    apply collect_raises.
    + unfold cameras_for. apply in_map_iff.
      exists (location_id, location, device). split; [|exact Ho].
      pose proof (camera_init location_id device ffmpeg_arguments) as Hinit.
      destruct (Camera.__init__ _ _ _) as [camera|e];
        [contradiction|now destruct Hinit as [-> _]].
    + intros e He. unfold cameras_for in He.
      apply in_map_iff in He as [[[i l] d] [He _]]. eauto.
Qed.

End Setup.

(** ** Camera adapter: the still image request *)

Section CameraRequest.

Import Camera Spec.

Lemma id_ne_true (a : option Z) (b : Z) : id_ne a b = true <-> a <> Some b.
Proof.
  destruct a as [x|]; simpl; [|split; [discriminate|reflexivity]].
  destruct (Z.eqb_spec x b) as [->|Hne]; simpl; split;
    congruence.
Qed.

Lemma held_event_id (seen : option Entry) (e : Entry) :
  entry_id (held_event seen e) = entry_id e.
Proof.
  destruct seen as [ev|]; simpl; [|reflexivity].
  destruct (Z.eqb_spec (entry_id ev) (entry_id e)); congruence.
Qed.

Lemma held_event_cases (seen : option Entry) (e : Entry) :
  held_event seen e = e \/ seen = Some (held_event seen e).
Proof.
  destruct seen as [ev|]; simpl; [|now left].
  destruct (entry_id ev =? entry_id e); [now right|now left].
Qed.

Variables (w : World) (s : state) (width height : option Z).

Lemma call_async_camera_image :
  call (async_camera_image width height) w s =
    match call _check_for_new_image w s with
    | (Ok _, s1) =>
        match fetch_entry_image w s1 with
        | (Normal _, s2) =>
            match grab_live_view width height w s2 with
            | (Normal _, s3) => (Ok (_image (self s3)), s3)
            | (Return r, s3) => (Ok r, s3)
            | (Raise x, s3) => (Raised x, s3)
            end
        | (Return r, s2) => (Ok r, s2)
        | (Raise x, s2) => (Raised x, s2)
        end
    | (Raised x, s1) => (Raised x, s1)
    end.
Proof.
  unfold async_camera_image. unfold call at 1. unfold bind at 1.
  rewrite invoke_call.
  destruct (call _check_for_new_image w s) as [[[]|x] s1]; [|reflexivity].
  unfold bind at 1.
  destruct (fetch_entry_image w s1) as [[[]|r|x] s2]; try reflexivity.
  unfold bind at 1.
  destruct (grab_live_view width height w s2) as [[[]|r|x] s3]; reflexivity.
Qed.

End CameraRequest.

(** ** Camera adapter: the claims *)

Section CameraClaims.

Import Camera Spec.

(** C2, as amended: on every still-image request the camera looks up
    the device's entries.  When the device is missing from the entry map
    the update ends silently and leaves the camera as it was.  When the
    list has a most recent entry, the camera holds an entry with that id
    afterwards (the one it held, or the most recent one), the cached
    image bytes are cleared if that id is not the one recorded for the
    cached image (none recorded counts as different) and kept otherwise,
    and the cached image URL becomes that entry's first thumbnail URL,
    absent only if it has no thumbnail.  A fetch that then succeeds
    caches the bytes and records that entry's id for them. *)
Theorem image_state_update (w : World) (s : state) :
  let device := device_id (_device (self s)) in
  (entries (data w) !! device = None ->
   call _check_for_new_image w s = (Ok tt, s)) /\
  (forall e rest,
     entries (data w) !! device = Some (e :: rest) ->
     exists s1 ev,
       call _check_for_new_image w s = (Ok tt, s1) /\
       _last_event (self s1) = Some ev /\
       entry_id ev = entry_id e /\
       (ev = e \/ _last_event (self s) = Some ev) /\
       (_last_image_id (self s) <> Some (entry_id e) ->
        _image (self s1) = None) /\
       (_last_image_id (self s) = Some (entry_id e) ->
        _image (self s1) = _image (self s)) /\
       _image_url (self s1) = first_thumbnail ev /\
       _last_image_id (self s1) = _last_image_id (self s) /\
       trace s1 = trace s /\
       (forall url response width height,
          _image (self s1) = None ->
          _image_url (self s1) = Some url ->
          url <> ""%string ->
          client_get w url = Ok response ->
          is_success response = true ->
          exists s2,
            call (async_camera_image width height) w s
              = (Ok (Some (content response)), s2) /\
            _image (self s2) = Some (content response) /\
            _last_image_id (self s2) = Some (entry_id e) /\
            trace s2 = trace s ++ [HttpGet url 10])).
Proof.
  cbn zeta. split; [apply check_device_missing|].
  intros e rest He.
  pose proof (check_entry w s e rest He) as Hcheck. cbn zeta in Hcheck.
  pose proof (held_event_id (_last_event (self s)) e) as Hid.
  pose proof (held_event_cases (_last_event (self s)) e) as Hcases.
  set (ev := held_event (_last_event (self s)) e) in *.
  rewrite Hid in Hcheck.
  eexists _, ev. split; [exact Hcheck|].
  destruct s as [c t], c. cbn in *.
  split; [reflexivity|]. split; [exact Hid|]. split; [exact Hcases|].
  split; [|split].
  { intros Hne. apply id_ne_true in Hne. now rewrite Hne. }
  { intros Heq. destruct (id_ne _ _) eqn:Hne; [|reflexivity].
    apply id_ne_true in Hne. contradiction. }
  split; [reflexivity|]. split; [reflexivity|]. split; [reflexivity|].
  intros url response width height Himage Hurl Hnonempty Hget Hok.
  rewrite call_async_camera_image, Hcheck.
  erewrite fetch_succeeds; [|exact Himage|exact Hurl|exact Hnonempty
                            |exact Hget|exact Hok].
  rewrite live_view. cbn. rewrite Hid.
  eexists. split; [reflexivity|]. cbn. auto.
Qed.

(** C7: when the fetch of the thumbnail times out or fails with a
    request or status error, the still-image request does not raise: it
    goes on to the live view from the state the failed fetch left,
    renewing the session (throttled) and grabbing a frame if there is a
    live-stream URL.  It returns no image when there is no live-stream
    URL or when no frame comes back. *)
Theorem fetch_failure_falls_through (w : World) (s s1 : state)
    (url : string) (width height : option Z) :
  call _check_for_new_image w s = (Ok tt, s1) ->
  _image (self s1) = None ->
  _image_url (self s1) = Some url ->
  url <> ""%string ->
  fetch_failed (client_get w url) = true ->
  let s2 := {| self := self s1; trace := trace s1 ++ [HttpGet url 10] |} in
  let s3 := snd (call renew_live_stream_session w s2) in
  let live := _live_stream_url (self s3) in
  let grabbed := async_get_image w (default "" live)
                   (_ffmpeg_arguments (self s3)) width height in
  exists image s4,
    call (async_camera_image width height) w s = (Ok image, s4) /\
    (truthy_str live = false -> image = None /\ s4 = s3) /\
    (truthy_str live = true ->
       trace s4 = trace s3 ++
         [ImageGrabbed (default "" live) (_ffmpeg_arguments (self s3))] /\
       (truthy_bytes grabbed = true -> image = grabbed) /\
       (truthy_bytes grabbed = false -> image = None)).
Proof.
  intros Hcheck Himage Hurl Hnonempty Hfail. cbn zeta.
  rewrite call_async_camera_image, Hcheck.
  rewrite (fetch_fails w s1 url Himage Hurl Hnonempty Hfail).
  rewrite live_view. cbn [self trace]. rewrite Himage. cbn [is_None].
  set (s3 := snd (call renew_live_stream_session w _)).
  assert (Hkept : _image (self s3) = None).
  { subst s3. rewrite call_renew. cbn [snd self].
    destruct (due _ _ _); [|exact Himage].
    destruct s1 as [c t], c. exact Himage. }
  destruct (truthy_str (_live_stream_url (self s3))).
  - eexists _, _. split; [reflexivity|]. split; [discriminate|].
    intros _. split; [reflexivity|]. cbn [self].
    destruct (truthy_bytes _) eqn:Hgrab; split; try discriminate; intros _.
    + destruct (self s3); reflexivity.
    + exact Hkept.
  - eexists _, _. split; [reflexivity|]. split; [auto|discriminate].
Qed.

(** C8, as amended: of two calls of the renewal less than 90 seconds
    apart, the first of which renews, only the first asks the vendor for a
    session, starts its keep-alive and stores its URL; the second does
    nothing and leaves the session, the URL and everything else as they
    were.  The first call on a camera that never renewed does renew. *)
Theorem renewal_is_throttled (w1 w2 : World) (s : state) :
  due MIN_TIME_BETWEEN_SESSION_RENEW (_throttle (self s)) (utcnow w1) = true ->
  utcnow w2 - utcnow w1 < MIN_TIME_BETWEEN_SESSION_RENEW ->
  let session := get_live_stream_session w1 (_device (self s)) in
  exists s1,
    call renew_live_stream_session w1 s = (Ok tt, s1) /\
    trace s1 = trace s ++ renewal (self s) /\
    _live_stream_session (self s1) = Some session /\
    _live_stream_url (self s1) = live_stream_url session /\
    call renew_live_stream_session w2 s1 = (Ok tt, s1).
Proof.
  intros Hdue Hclose. cbn zeta. rewrite call_renew, Hdue.
  eexists. split; [reflexivity|]. cbn [self trace].
  split; [reflexivity|]. split; [destruct (self s); reflexivity|].
  split; [destruct (self s); reflexivity|].
  rewrite call_renew. cbn [self].
  replace (_throttle (renewed w1 (self s))) with (Some (utcnow w1))
    by (destruct (self s); reflexivity).
  unfold due. destruct (Z.ltb_spec MIN_TIME_BETWEEN_SESSION_RENEW
                          (utcnow w2 - utcnow w1)); [lia|reflexivity].
Qed.

Lemma never_renewed_is_due (min_time now : Z) : due min_time None now = true.
Proof. reflexivity. Qed.

(** C9: the MJPEG handler first renews the session (throttled).  With no
    live-stream URL after that it returns no response and starts no
    process.  Otherwise whatever it does ends by closing the process it
    opened: after the reader was asked for and failed, after the proxying
    raised, and after the proxying completed. *)
Theorem mjpeg_stream_closes_process (w : World) (s : state) (request : Request) :
  let s1 := snd (call renew_live_stream_session w s) in
  let live := _live_stream_url (self s1) in
  exists response s2 events,
    call (handle_async_mjpeg_stream request) w s = (response, s2) /\
    self s2 = self s1 /\
    trace s2 = trace s1 ++ events /\
    (truthy_str live = false -> response = Ok None /\ events = []) /\
    (forall u x, In (StreamOpened u x) events ->
       exists during,
         events = StreamOpened u x :: during ++ [StreamClosed] /\
         ~ In StreamClosed during /\
         match response with
         | Ok r => exists reader proxied,
             get_reader w = Ok reader /\
             async_aiohttp_proxy_stream w request reader = Ok proxied /\
             r = Some proxied
         | Raised e =>
             get_reader w = Raised e \/
             exists reader, get_reader w = Ok reader /\
               async_aiohttp_proxy_stream w request reader = Raised e
         end).
Proof.
  cbn zeta.
  destruct (call renew_live_stream_session w s) as [[[]|x] s1] eqn:Hrenew;
    [|rewrite call_renew in Hrenew; discriminate].
  cbn [snd]. unfold handle_async_mjpeg_stream. py_step.
  rewrite invoke_call, Hrenew. destruct (truthy_str (_live_stream_url (self s1))); cbn [negb].
  - destruct (open_camera w _ _) as [[]|x].
    + destruct (get_reader w) as [reader|x].
      * destruct (async_aiohttp_proxy_stream w request reader) as [r|x] eqn:Hproxy.
        -- eexists _, _, _. split; [reflexivity|]. cbn [self trace].
           split; [reflexivity|]. split; [now rewrite <- !app_assoc|].
           split; [discriminate|]. intros u x [[= <- <-]|[|[|[|[]]]]]; try discriminate.
           exists [ReaderRequested; StreamProxied]. split; [reflexivity|].
           split; [intros [|[|[]]]; discriminate|].
           exists reader, r. auto.
        -- eexists _, _, _. split; [reflexivity|]. cbn [self trace].
           split; [reflexivity|]. split; [now rewrite <- !app_assoc|].
           split; [discriminate|]. intros u y [[= <- <-]|[|[|[|[]]]]]; try discriminate.
           exists [ReaderRequested; StreamProxied]. split; [reflexivity|].
           split; [intros [|[|[]]]; discriminate|].
           right. exists reader. auto.
      * eexists _, _, _. split; [reflexivity|]. cbn [self trace].
        split; [reflexivity|]. split; [now rewrite <- !app_assoc|].
        split; [discriminate|]. intros u y [[= <- <-]|[|[|[]]]]; try discriminate.
        exists [ReaderRequested]. split; [reflexivity|].
        split; [intros [|[]]; discriminate|]. now left.
    + exists (Raised x), s1, []. split; [reflexivity|].
      split; [reflexivity|]. split; [now rewrite app_nil_r|].
      split; [discriminate|]. intros u y [].
  - exists (Ok None), s1, []. split; [reflexivity|].
    split; [reflexivity|]. split; [now rewrite app_nil_r|].
    split; [auto|]. intros u y [].
Qed.

(** C10, as amended: the fetch of the thumbnail changes the cached
    image bytes or the recorded image-producing entry id only when the
    GET succeeds and its status check passes; on a timeout, a request
    error or a status error it leaves the camera exactly as it was before
    the fetch.  The thumbnail of the same entry is then fetched again on
    the next image request, provided that entry's id is not the one
    already recorded for a cached image, or no frame of the live view was
    cached in between. *)
Theorem fetch_updates_only_on_success :
  (forall w s c s',
     fetch_entry_image w s = (c, s') ->
     _image (self s') <> _image (self s) \/
       _last_image_id (self s') <> _last_image_id (self s) ->
     exists url response,
       _image_url (self s) = Some url /\
       client_get w url = Ok response /\
       is_success response = true) /\
  (forall w s url,
     _image (self s) = None ->
     _image_url (self s) = Some url ->
     url <> ""%string ->
     fetch_failed (client_get w url) = true ->
     fetch_entry_image w s =
       (Normal tt, {| self := self s; trace := trace s ++ [HttpGet url 10] |})) /\
  (forall w1 w2 s e rest e' rest' url width height width' height',
     let device := device_id (_device (self s)) in
     let s1 := snd (call _check_for_new_image w1 s) in
     let s2 := snd (call (async_camera_image width height) w1 s) in
     let s3 := snd (call (async_camera_image width' height') w2 s2) in
     entries (data w1) !! device = Some (e :: rest) ->
     _image (self s1) = None ->
     _image_url (self s1) = Some url ->
     url <> ""%string ->
     fetch_failed (client_get w1 url) = true ->
     entries (data w2) !! device = Some (e' :: rest') ->
     entry_id e' = entry_id e ->
     _last_image_id (self s) <> Some (entry_id e) \/ _image (self s2) = None ->
     exists events, trace s3 = trace s2 ++ HttpGet url 10 :: events).
Proof.
  split; [intros w s c s'; apply fetch_changes_on_success|].
  split; [intros w s url; apply fetch_fails|].
  intros w1 w2 s e rest e' rest' url width height width' height'. cbn zeta.
  intros He Himage Hurl Hnonempty Hfail He' Hsame Hretry.
  (* the first request *)
  pose proof (check_entry w1 s e rest He) as Hcheck. cbn zeta in Hcheck.
  pose proof (held_event_id (_last_event (self s)) e) as Hid.
  set (ev := held_event (_last_event (self s)) e) in *.
  match type of Hcheck with
  | _ = (_, ?st) => set (st1 := st) in Hcheck
  end.
  rewrite Hcheck in Himage, Hurl. cbn [snd] in Himage, Hurl.
  destruct (call (async_camera_image width height) w1 s) as [o1 s2] eqn:Hreq1.
  cbn [snd] in *.
  rewrite call_async_camera_image, Hcheck in Hreq1.
  rewrite (fetch_fails w1 st1 url Himage Hurl Hnonempty Hfail) in Hreq1.
  destruct (grab_live_view width height w1 _) as [c s2'] eqn:Hlive.
  assert (s2' = s2) as -> by (destruct c; now inversion Hreq1).
  apply live_view_keeps in Hlive as (Hdev & Hev & Hlast & Hthumb & _ & Hc).
  subst st1. cbn [self trace] in Hdev, Hev, Hlast, Hthumb, Hurl.
  assert (Hdev' : _device (self s2) = _device (self s))
    by (rewrite Hdev; destruct (self s); reflexivity).
  assert (Hev' : _last_event (self s2) = Some ev)
    by (rewrite Hev; destruct (self s); reflexivity).
  assert (Hlast' : _last_image_id (self s2) = _last_image_id (self s))
    by (rewrite Hlast; destruct (self s); reflexivity).
  (* the second request *)
  rewrite <- Hdev' in He'.
  pose proof (check_entry w2 s2 e' rest' He') as Hcheck2. cbn zeta in Hcheck2.
  rewrite Hev' in Hcheck2.
  assert (Hheld : held_event (Some ev) e' = ev).
  { unfold held_event. rewrite Hsame, Hid, Z.eqb_refl. reflexivity. }
  rewrite Hheld, Hlast' in Hcheck2.
  rewrite call_async_camera_image, Hcheck2.
  match goal with
  | |- context [fetch_entry_image w2 ?st] =>
      destruct (fetch_issues_get w2 st url) as (c2 & s3 & Hfetch & Htrace & Hnoret)
  end.
  { cbn [self]. destruct Hretry as [Hne|Hnone].
    - rewrite Hid in *. apply id_ne_true in Hne. rewrite Hne.
      destruct (self s2); reflexivity.
    - rewrite Hnone. destruct (id_ne _ _); destruct (self s2); reflexivity. }
  { rewrite <- Hurl. destruct (self s2), (self s); reflexivity. }
  { exact Hnonempty. }
  rewrite Hfetch. cbn [trace] in Htrace.
  destruct c2 as [[]|r|x].
  - destruct (grab_live_view width' height' w2 s3) as [c3 s4] eqn:Hlive2.
    apply live_view_keeps in Hlive2 as (_ & _ & _ & _ & [events Hevents] & _).
    exists events.
    replace (trace _) with (trace s4) by (destruct c3; reflexivity).
    rewrite Hevents, Htrace, <- app_assoc. reflexivity.
  - now destruct (Hnoret r).
  - exists []. cbn [snd]. exact Htrace.
Qed.

End CameraClaims.

(** ** The claims on the household *)

Section OnTheHousehold.

Import Sensor Spec Examples.


Lemma native_value_entry_metrics_witness :
  fst (call (native_value (built (Sensor.__init__ entries_captured_today home attic)))
            (snapshot [] None) tt) = Ok (Some (SVint 3)) /\
  fst (call (native_value (built (Sensor.__init__ entries_captured_today home porch)))
            (snapshot [] None) tt) = Ok (Some (SVint 0)) /\
  fst (call (native_value (built (Sensor.__init__ entries_captured_today home garage)))
            (snapshot [] None) tt) = Ok None /\
  fst (call (native_value (built (Sensor.__init__ last_entry_date home attic)))
            (snapshot [] None) tt) = Ok (Some (SVdatetime 1700001200)) /\
  fst (call (native_value (built (Sensor.__init__ last_entry_date home porch)))
            (snapshot [] None) tt) = Ok None.
Proof.
  refine (conj _ (conj _ (conj _ (conj _ _)))).
  - destruct (native_value_entry_metrics entries_captured_today home attic
                (snapshot [] None) (built (Sensor.__init__ entries_captured_today home attic))
                eq_refl) as [H _].
    destruct (H eq_refl) as [Hcount _]. exact (Hcount _ eq_refl).
  - destruct (native_value_entry_metrics entries_captured_today home porch
                (snapshot [] None) (built (Sensor.__init__ entries_captured_today home porch))
                eq_refl) as [H _].
    destruct (H eq_refl) as (_ & Hzero & _). exact (Hzero eq_refl).
  - destruct (native_value_entry_metrics entries_captured_today home garage
                (snapshot [] None) (built (Sensor.__init__ entries_captured_today home garage))
                eq_refl) as [H _].
    destruct (H eq_refl) as (_ & _ & Hmissing). exact (Hmissing eq_refl).
  - destruct (native_value_entry_metrics last_entry_date home attic
                (snapshot [] None) (built (Sensor.__init__ last_entry_date home attic))
                eq_refl) as [_ H].
    destruct (H eq_refl) as [Hfirst _]. exact (Hfirst _ _ eq_refl).
  - destruct (native_value_entry_metrics last_entry_date home porch
                (snapshot [] None) (built (Sensor.__init__ last_entry_date home porch))
                eq_refl) as [_ H].
    destruct (H eq_refl) as (_ & Hempty & _). exact (Hempty eq_refl).
Defined.

Lemma native_value_reading_metrics_witness :
  fst (call (native_value (built (Sensor.__init__ temperature home porch)))
            (snapshot [] None) tt) = Ok (Some (SVfloat 21.5%float)) /\
  fst (call (native_value (built (Sensor.__init__ air_quality home porch)))
            (snapshot [] None) tt) = Ok None /\
  fst (call (native_value (built (Sensor.__init__ wifi home porch)))
            (snapshot [] None) tt) = Ok None /\
  fst (call (native_value (built (Sensor.__init__ wifi home garage)))
            (snapshot [] None) tt) = Ok None.
Proof.
  refine (conj _ (conj _ (conj _ _))).
  - destruct (native_value_reading_metrics temperature home porch
                (snapshot [] None) (built (Sensor.__init__ temperature home porch))
                eq_refl TEMPERATURE eq_refl) as [H _].
    rewrite (H _ _ eq_refl eq_refl). vm_compute. reflexivity.
  - destruct (native_value_reading_metrics air_quality home porch
                (snapshot [] None) (built (Sensor.__init__ air_quality home porch))
                eq_refl AIR_QUALITY eq_refl) as [H _].
    rewrite (H _ _ eq_refl eq_refl). reflexivity.
  - destruct (native_value_reading_metrics wifi home porch
                (snapshot [] None) (built (Sensor.__init__ wifi home porch))
                eq_refl WIFI eq_refl) as (_ & H & _).
    exact (H _ eq_refl eq_refl).
  - destruct (native_value_reading_metrics wifi home garage
                (snapshot [] None) (built (Sensor.__init__ wifi home garage))
                eq_refl WIFI eq_refl) as (_ & _ & H).
    exact (H eq_refl).
Defined.

Lemma setup_creates_adapters_witness :
  (exists cameras,
     Camera.async_setup_entry (snapshot [] None) "-pred 1" = Ok cameras /\
     map Camera._device cameras = [porch; attic]) /\
  (exists sensors,
     Sensor.async_setup_entry (snapshot [] None) = Ok sensors /\
     map (fun sensor => (_device_id sensor, st_name (_sensor_type sensor)))
         sensors
       = [(1, "temperature"); (1, "humidity"); (1, "air_quality"); (1, "wifi");
          (1, "last_entry_date"); (1, "entries_captured_today");
          (3, "wifi"); (3, "entries_captured_today")]%string) /\
  Camera.async_setup_entry with_yard "-pred 1" = Raised KeyError /\
  (exists sensors,
     Sensor.async_setup_entry with_yard = Ok sensors /\
     length sensors = 8%nat).
Proof.
  refine (conj _ (conj _ (conj _ _))).
  - destruct (setup_creates_adapters (snapshot [] None) "-pred 1")
      as (_ & _ & _ & Hcameras & _).
    destruct Hcameras as (cameras & Hsetup & _).
    { intros o Ho. vm_compute in Ho.
      destruct Ho as [<-|[<-|[]]]; vm_compute; eauto. }
    exists cameras. split; [exact Hsetup|].
    vm_compute in Hsetup. injection Hsetup as <-. reflexivity.
  - destruct (setup_creates_adapters (snapshot [] None) "-pred 1")
      as ((sensors & Hsetup & _) & _).
    exists sensors. split; [exact Hsetup|].
    vm_compute in Hsetup. injection Hsetup as <-. reflexivity.
  - destruct (setup_creates_adapters with_yard "-pred 1")
      as (_ & _ & _ & _ & Hraised).
    apply Hraised. exists ("yard"%string, yard, shed).
    split; [vm_compute; auto|].
    intros [model Hmodel]. vm_compute in Hmodel. discriminate.
  - destruct (setup_creates_adapters with_yard "-pred 1")
      as ((sensors & Hsetup & _) & _).
    exists sensors. split; [exact Hsetup|].
    vm_compute in Hsetup. injection Hsetup as <-. reflexivity.
Defined.

Import Camera.

(** C1: the camera's image-state update does not absorb a device whose
    entry list is empty.  On the camera as setup leaves it, and on the
    camera after it has served entry 5, the update raises IndexError, and
    so does the still-image request. *)
Theorem empty_entry_list_raises :
  let quiet := world (snapshot [] None) 2000 served rtsp (Some frame) (Ok 2) in
  call _check_for_new_image quiet fresh = (Raised IndexError, fresh) /\
  call (async_camera_image None None) quiet fresh = (Raised IndexError, fresh) /\
  call _check_for_new_image quiet state1 = (Raised IndexError, state1) /\
  call (async_camera_image None None) quiet state1 = (Raised IndexError, state1).
Proof. vm_compute. auto. Qed.

(** Entry 6 arrives while the image of entry 5 is cached: the update
    clears the image bytes, and the image URL is entry 6's thumbnail, not
    cleared.  The same on a camera that has no image yet. *)
Lemma image_url_not_cleared :
  let updated := snd (call _check_for_new_image request2 state1) in
  let first := snd (call _check_for_new_image request1 fresh) in
  (_image (self state1) = Some jpeg /\
   _last_image_id (self state1) = Some 5 /\
   entries (data request2) !! 1 = Some [entry6; entry5] /\
   _image (self updated) = None /\
   _image_url (self updated) = Some "https://t/6.jpg"%string /\
   _image_url (self updated) <> None) /\
  (_last_image_id (self fresh) = None /\
   _image (self first) = None /\
   _image_url (self first) = Some "https://t/5.jpg"%string /\
   _image_url (self first) <> None).
Proof. vm_compute. repeat split; discriminate. Qed.

(** In the third request the fetch of entry 5's thumbnail times out and
    a frame of the live view is cached; in the fourth, with entry 5 still
    the most recent one and the server back, no GET is made and the
    frame is served again. *)
Lemma failed_fetch_not_retried :
  trace state3 =
    trace state2 ++ [HttpGet "https://t/5.jpg" 10; SessionRequested 1;
                     RenewStarted; ImageGrabbed "rtsp://live/1" "-pred 1"] /\
  client_get request3 "https://t/5.jpg" = Raised TimeoutException /\
  _last_image_id (self state3) = _last_image_id (self state2) /\
  entries (data request4) !! 1 = entries (data request3) !! 1 /\
  client_get request4 "https://t/5.jpg" = served /\
  call (async_camera_image None None) request4 state3 = (Ok (Some frame), state3) /\
  trace state4 = trace state3.
Proof. vm_compute. repeat split; auto. Qed.

Lemma image_state_update_witness :
  fst (call (async_camera_image None None) request1 fresh) = Ok (Some jpeg) /\
  _last_image_id (self state1) = Some 5.
Proof.
  destruct (image_state_update request1 fresh) as [_ H].
  destruct (H entry5 [] eq_refl)
    as (s1 & ev & _ & _ & _ & Hheld & Hcleared & _ & Hurl & _ & _ & Hfetch).
  assert (Hev : ev = entry5) by (destruct Hheld; [assumption|discriminate]).
  subst ev.
  destruct (Hfetch "https://t/5.jpg"%string
              {| is_success := true; content := jpeg |} None None)
    as (s2 & Hcall & _ & Hid & _).
  - apply Hcleared. discriminate.
  - exact Hurl.
  - discriminate.
  - reflexivity.
  - reflexivity.
  - split; [rewrite Hcall; reflexivity|].
    unfold state1, after. rewrite Hcall. exact Hid.
Defined.

Lemma fetch_failure_falls_through_witness :
  fst (call (async_camera_image None None) request2 state1) = Ok None.
Proof.
  destruct (fetch_failure_falls_through request2 state1
              (snd (call _check_for_new_image request2 state1))
              "https://t/6.jpg" None None)
    as (image & s4 & Hcall & _ & Hlive).
  - vm_compute. reflexivity.
  - vm_compute. reflexivity.
  - vm_compute. reflexivity.
  - discriminate.
  - vm_compute. reflexivity.
  - destruct (Hlive eq_refl) as (_ & _ & Hnone).
    rewrite Hcall, (Hnone eq_refl). reflexivity.
Defined.

Lemma renewal_is_throttled_witness :
  let again := world (snapshot [] None) 1089 served None None (Ok 2) in
  let renewed := snd (call renew_live_stream_session request1 fresh) in
  call renew_live_stream_session again renewed = (Ok tt, renewed) /\
  trace renewed = [SessionRequested 1; RenewStarted] /\
  _live_stream_url (self renewed) = rtsp.
Proof.
  cbn zeta.
  destruct (renewal_is_throttled request1
              (world (snapshot [] None) 1089 served None None (Ok 2)) fresh)
    as (s1 & Hfirst & Htrace & _ & Hurl & Hsecond).
  - reflexivity.
  - reflexivity.
  - rewrite Hfirst. cbn [snd]. auto.
Defined.

(** The gate counts from the last renewal that ran, not from the last
    call.  A camera that renewed at 1000 is called at 1080 and at 1100,
    20 seconds apart: the first of the two is throttled and the second,
    100 seconds after the renewal, runs, asks the vendor for a session
    and stores its URL.  Called at 1080 and at 1089 instead, the camera
    makes no vendor call at all. *)
Lemma second_call_within_window_renews :
  let renewed := snd (call renew_live_stream_session request1 fresh) in
  let moved := Some "rtsp://live/2"%string in
  let early := world (snapshot [] None) 1080 served moved None (Ok 2) in
  let late := world (snapshot [] None) 1100 served moved None (Ok 2) in
  let again := world (snapshot [] None) 1089 served moved None (Ok 2) in
  let s1 := snd (call renew_live_stream_session early renewed) in
  let s2 := snd (call renew_live_stream_session late s1) in
  let s2' := snd (call renew_live_stream_session again s1) in
  _throttle (self renewed) = Some 1000 /\
  utcnow late - utcnow early < MIN_TIME_BETWEEN_SESSION_RENEW /\
  s1 = renewed /\
  trace s2 = trace s1 ++ [SessionRequested 1; RenewStarted] /\
  _live_stream_url (self s1) = rtsp /\
  _live_stream_url (self s2) = moved /\
  s2 <> s1 /\
  utcnow again - utcnow early < MIN_TIME_BETWEEN_SESSION_RENEW /\
  trace s2' = trace renewed.
Proof. vm_compute. repeat split; try reflexivity; discriminate. Qed.

Lemma mjpeg_stream_closes_process_witness :
  let gone := world (snapshot [] None) 1000 served rtsp None
                    (Raised CancelledError) in
  fst (call (handle_async_mjpeg_stream 7) gone fresh) = Raised CancelledError /\
  exists during,
    trace (snd (call (handle_async_mjpeg_stream 7) gone fresh)) =
      [SessionRequested 1; RenewStarted] ++
      StreamOpened "rtsp://live/1" "-pred 1" :: during ++ [StreamClosed].
Proof.
  cbn zeta. split; [reflexivity|].
  destruct (mjpeg_stream_closes_process
              (world (snapshot [] None) 1000 served rtsp None
                     (Raised CancelledError)) fresh 7)
    as (response & s2 & events & Hcall & _ & Htrace & _ & Hclosed).
  rewrite Hcall. cbn [snd]. rewrite Htrace.
  pose proof (f_equal (fun r => trace (snd r)) Hcall) as Hrun.
  cbn [snd] in Hrun. rewrite Htrace in Hrun.
  apply (app_inv_head [SessionRequested 1; RenewStarted]) in Hrun.
  destruct (Hclosed "rtsp://live/1"%string "-pred 1"%string)
    as (during & -> & _).
  - rewrite <- Hrun. now left.
  - exists during. reflexivity.
Defined.

Lemma fetch_updates_only_on_success_witness :
  let timed_out := world (snapshot [entry5] None) 1000 (Raised TimeoutException)
                         rtsp (Some frame) (Ok 2) in
  let s2 := after timed_out fresh in
  _image (self s2) = Some frame /\
  exists events,
    trace (after request4 s2) = trace s2 ++ HttpGet "https://t/5.jpg" 10 :: events.
Proof.
  cbn zeta. split; [reflexivity|].
  destruct fetch_updates_only_on_success as (_ & _ & Hretry).
  apply (Hretry _ request4 fresh entry5 [] entry5 [] "https://t/5.jpg"%string
           None None None None).
  - reflexivity.
  - reflexivity.
  - reflexivity.
  - discriminate.
  - reflexivity.
  - reflexivity.
  - reflexivity.
  - left. discriminate.
Defined.

End OnTheHousehold.

(** ** More on the still image request *)

Section RequestOutcomes.

Import Camera Spec More.

Variables (w : World) (s : state).

(** Everything the fetch block can do. *)
Lemma fetch_cases (c : completion (option (list byte)) unit) (s' : state) :
  fetch_entry_image w s = (c, s') ->
  (c = Normal tt /\ s' = s /\
   is_None (_image (self s)) && truthy_str (_image_url (self s)) = false) \/
  (exists url,
     _image (self s) = None /\ _image_url (self s) = Some url /\
     trace s' = trace s ++ [HttpGet url 10] /\
     ((exists response,
         client_get w url = Ok response /\ is_success response = true /\
         c = Normal tt /\
         self s' = set_last_image_id (entry_id <$> _last_event (self s))
                     (set_image (Some (content response)) (self s))) \/
      (fetch_failed (client_get w url) = true /\ c = Normal tt /\
       self s' = self s) \/
      (exists x,
         client_get w url = Raised x /\ fetch_failed (Raised x) = false /\
         c = Raise x /\ self s' = self s))).
Proof.
  unfold fetch_entry_image. py_run.
  destruct (is_None (_image (self s)) && truthy_str (_image_url (self s)))
    eqn:Hgo; [|intros [= <- <-]; now left].
  apply andb_prop in Hgo as [Himage Hurl].
  destruct (_image (self s)) eqn:Hi; [discriminate|].
  destruct (_image_url (self s)) as [url|] eqn:Hu; [|discriminate].
  cbn [default]. unfold id. intros H. right. exists url.
  split; [reflexivity|]. split; [reflexivity|].
  destruct (client_get w url) as [response|x] eqn:Hget.
  - unfold raise_for_status in H. destruct (is_success response) eqn:Hok;
      injection H as <- <-; (split; [reflexivity|]).
    + left. exists response. split; [reflexivity|]. split; [exact Hok|].
      split; [reflexivity|]. destruct s as [me t], me. reflexivity.
    + right. left. cbn. now rewrite Hok.
  - destruct x; injection H as <- <-; (split; [reflexivity|]);
      try (right; left; repeat split; reflexivity);
      right; right; eexists; repeat split; reflexivity.
Qed.

End RequestOutcomes.

Section RequestTheorems.

Import Camera Spec More.

Variables (w : World) (s : state).

Lemma check_keeps_device (o : outcome unit) (s' : state) :
  call _check_for_new_image w s = (o, s') ->
  _device (self s') = _device (self s) /\ trace s' = trace s.
Proof.
  pose proof (check_outcomes w s) as H.
  destruct (entries (data w) !! device_id (_device (self s)))
    as [[|e rest]|] eqn:He.
  - rewrite H. intros [= <- <-]. auto.
  - rewrite (check_entry w s e rest He). intros [= <- <-].
    destruct s as [me t], me. auto.
  - rewrite H. intros [= <- <-]. auto.
Qed.

(** With an image in the cache after the update, the request is over. *)
Lemma request_with_image (width height : option Z) (s1 : state)
    (bytes : list byte) :
  call _check_for_new_image w s = (Ok tt, s1) ->
  _image (self s1) = Some bytes ->
  call (async_camera_image width height) w s = (Ok (Some bytes), s1).
Proof.
  intros Hcheck Himage. rewrite call_async_camera_image, Hcheck.
  rewrite fetch_not_attempted by now rewrite Himage.
  rewrite live_view, Himage. cbn [is_None]. now rewrite Himage.
Qed.

(** X7: the update of the image state is idempotent: run again on the
    same snapshot it ends the same way and leaves the camera as the first
    run left it. *)
Theorem check_is_idempotent :
  let first := call _check_for_new_image w s in
  call _check_for_new_image w (snd first) = first.
Proof.
  cbn zeta. pose proof (check_outcomes w s) as H.
  destruct (entries (data w) !! device_id (_device (self s)))
    as [[|e rest]|] eqn:He.
  - rewrite H. cbn [snd]. exact H.
  - pose proof (check_entry w s e rest He) as H1. cbn zeta in H1.
    pose proof (held_event_id (_last_event (self s)) e) as Hid.
    set (ev := held_event (_last_event (self s)) e) in *.
    rewrite H1. cbn [snd].
    match goal with |- call _ _ ?st = _ => set (s1 := st) end.
    assert (He1 : entries (data w) !! device_id (_device (self s1))
                  = Some (e :: rest))
      by (subst s1; destruct s as [me t], me; exact He).
    rewrite (check_entry w s1 e rest He1). subst s1. cbn [self trace].
    replace (_last_event (set_image_url _ _)) with (Some ev)
      by (destruct (self s); reflexivity).
    assert (Hheld : held_event (Some ev) e = ev)
      by (unfold held_event; now rewrite Hid, Z.eqb_refl).
    rewrite Hheld. destruct s as [me t], me. cbn.
    destruct (id_ne _ _); reflexivity.
  - rewrite H. cbn [snd]. exact H.
Qed.

(** X8: what a still-image request returns is what it leaves in the
    cache: the bytes of [_image], or nothing when [_image] is empty. *)
Theorem returned_image_is_cached (width height : option Z)
    (image : option (list byte)) (s' : state) :
  call (async_camera_image width height) w s = (Ok image, s') ->
  image = _image (self s').
Proof.
  rewrite call_async_camera_image.
  destruct (call _check_for_new_image w s) as [[[]|x] s1]; [|discriminate].
  destruct (fetch_entry_image w s1) as [[[]|r|x] s2] eqn:Hfetch;
    [| |discriminate].
  - rewrite live_view.
    destruct (_image (self s2)) eqn:Himage; cbn [is_None];
      [intros [= <- <-]; now rewrite Himage|].
    rewrite call_renew. cbn [snd].
    destruct (due _ _ _); cbn [self trace].
    + destruct (truthy_str _); intros [= <- <-]; [reflexivity|].
      destruct (self s2); cbn in *. now rewrite Himage.
    + destruct (truthy_str _); intros [= <- <-]; [reflexivity|].
      now rewrite Himage.
  - apply fetch_cases in Hfetch as [(Hc & _)|(url & _ & _ & _ & Hrest)];
      [discriminate|].
    destruct Hrest as [(? & _ & _ & Hc & _)|[(_ & Hc & _)|(? & _ & _ & Hc & _)]];
      discriminate.
Qed.

(** X9: an exception of the HTTP client that is neither a timeout nor a
    request or status error is not absorbed by the request.  When the
    update has left no image and a URL to fetch, and the GET raises such
    an exception, the request raises it right after the GET: no session is
    renewed, no frame is grabbed, and the camera is as the update left
    it. *)
Theorem uncaught_fetch_error_propagates (width height : option Z)
    (s1 : state) (url : string) (x : exn) :
  call _check_for_new_image w s = (Ok tt, s1) ->
  _image (self s1) = None ->
  _image_url (self s1) = Some url ->
  url <> ""%string ->
  client_get w url = Raised x ->
  fetch_failed (Raised x) = false ->
  call (async_camera_image width height) w s =
    (Raised x, {| self := self s1; trace := trace s1 ++ [HttpGet url 10] |}).
Proof.
  intros Hcheck Himage Hurl Hnonempty Hget Hnot.
  rewrite call_async_camera_image, Hcheck.
  destruct (fetch_entry_image w s1) as [c s2] eqn:Hfetch.
  apply fetch_cases in Hfetch as [(_ & _ & Hskip)|(url' & _ & Hu & Ht & Hrest)].
  - rewrite Himage, Hurl in Hskip. cbn in Hskip.
    destruct (String.eqb_spec url ""); [contradiction|discriminate].
  - assert (url' = url) as -> by congruence.
    destruct Hrest as [(r & Hr & _)|[(Hf & _)|(z & Hz & _ & -> & Hself)]].
    + congruence.
    + rewrite Hget in Hf. congruence.
    + assert (z = x) as -> by congruence.
      f_equal. destruct s2 as [me t]. cbn in *. now subst.
Qed.

(** X10: when the snapshot's most recent entry is the one whose image is
    cached, the request answers from the cache: it returns the cached
    bytes and calls no collaborator. *)
Theorem cached_image_is_served (width height : option Z) (e : Entry)
    (rest : list Entry) (bytes : list byte) :
  entries (data w) !! device_id (_device (self s)) = Some (e :: rest) ->
  _image (self s) = Some bytes ->
  _last_image_id (self s) = Some (entry_id e) ->
  exists s',
    call (async_camera_image width height) w s = (Ok (Some bytes), s') /\
    trace s' = trace s /\
    _image (self s') = Some bytes /\
    _last_image_id (self s') = Some (entry_id e).
Proof.
  intros He Himage Hid.
  pose proof (check_entry w s e rest He) as Hcheck. cbn zeta in Hcheck.
  rewrite (held_event_id (_last_event (self s)) e) in Hcheck.
  assert (Hsame : id_ne (_last_image_id (self s)) (entry_id e) = false).
  { destruct (id_ne _ _) eqn:Hne; [|reflexivity].
    apply id_ne_true in Hne. contradiction. }
  rewrite Hsame, Himage in Hcheck.
  eexists. split.
  - apply (request_with_image width height _ bytes Hcheck).
    destruct (self s); reflexivity.
  - cbn [self trace]. destruct (self s); cbn in *. auto.
Qed.

End RequestTheorems.

Section RequestSequences.

Import Camera Spec More.

(** X11: after a request that fetched an entry's thumbnail, every request
    that finds an entry with the same id at the head of the list is served
    the same bytes from the cache, whatever the collaborators would
    answer: it makes no call at all. *)
Theorem fetched_image_is_served_again (w1 w2 : World) (s : state)
    (e e' : Entry) (rest rest' : list Entry) (url : string)
    (response : Response) (width height width' height' : option Z) :
  let device := device_id (_device (self s)) in
  let s1 := snd (call _check_for_new_image w1 s) in
  let s2 := snd (call (async_camera_image width height) w1 s) in
  entries (data w1) !! device = Some (e :: rest) ->
  _image (self s1) = None ->
  _image_url (self s1) = Some url ->
  url <> ""%string ->
  client_get w1 url = Ok response ->
  is_success response = true ->
  entries (data w2) !! device = Some (e' :: rest') ->
  entry_id e' = entry_id e ->
  fst (call (async_camera_image width height) w1 s) = Ok (Some (content response)) /\
  exists s3,
    call (async_camera_image width' height') w2 s2
      = (Ok (Some (content response)), s3) /\
    trace s3 = trace s2.
Proof.
  cbn zeta. intros He Himage Hurl Hnonempty Hget Hok He' Hsame.
  pose proof (check_entry w1 s e rest He) as Hcheck. cbn zeta in Hcheck.
  pose proof (held_event_id (_last_event (self s)) e) as Hid.
  set (ev := held_event (_last_event (self s)) e) in *.
  match type of Hcheck with _ = (_, ?st) => set (st1 := st) in Hcheck end.
  rewrite Hcheck in Himage, Hurl. cbn [snd] in Himage, Hurl.
  rewrite call_async_camera_image, Hcheck.
  rewrite (fetch_succeeds w1 st1 url Himage Hurl Hnonempty response Hget Hok).
  rewrite live_view. cbn [self trace fst snd].
  replace (_image (set_last_image_id _ _)) with (Some (content response))
    by (destruct (self st1); reflexivity).
  cbn [is_None fst snd]. split; [reflexivity|].
  match goal with |- context [call _ w2 ?st] => set (s2 := st) end.
  assert (Hdev : _device (self s2) = _device (self s))
    by (subst s2 st1; destruct (self s); reflexivity).
  rewrite <- Hdev in He'.
  pose proof (check_entry w2 s2 e' rest' He') as Hcheck2. cbn zeta in Hcheck2.
  assert (Hev : _last_event (self s2) = Some ev)
    by (subst s2 st1; destruct (self s); reflexivity).
  assert (Hlast : _last_image_id (self s2) = Some (entry_id ev))
    by (subst s2 st1; destruct (self s); reflexivity).
  assert (Hbytes : _image (self s2) = Some (content response))
    by (subst s2 st1; destruct (self s); reflexivity).
  rewrite Hev, Hlast, Hbytes in Hcheck2.
  assert (Hheld : held_event (Some ev) e' = ev)
    by (unfold held_event; now rewrite Hsame, Hid, Z.eqb_refl).
  rewrite Hheld in Hcheck2.
  assert (Hkeep : id_ne (Some (entry_id ev)) (entry_id ev) = false)
    by (cbn; now rewrite Z.eqb_refl).
  rewrite Hkeep in Hcheck2.
  eexists. split.
  - apply (request_with_image w2 s2 width' height' _ (content response) Hcheck2).
    destruct (self s2); reflexivity.
  - reflexivity.
Qed.

End RequestSequences.

(** ** More on the MJPEG stream *)

Section Stream.

Import Camera Spec More.

Variables (w : World) (s : state) (request : Request).

(** Everything the handler can do. *)
Lemma call_handle_async_mjpeg_stream :
  let s1 := snd (call renew_live_stream_session w s) in
  let live := default "" (_live_stream_url (self s1)) in
  let extra := _ffmpeg_arguments (self s1) in
  let ran (events : list event) :=
    {| self := self s1; trace := trace s1 ++ StreamOpened live extra :: events |} in
  call (handle_async_mjpeg_stream request) w s =
    if truthy_str (_live_stream_url (self s1)) then
      match open_camera w live extra with
      | Ok _ =>
          match get_reader w with
          | Ok reader =>
              match async_aiohttp_proxy_stream w request reader with
              | Ok response =>
                  (Ok (Some response),
                   ran [ReaderRequested; StreamProxied; StreamClosed])
              | Raised x =>
                  (Raised x, ran [ReaderRequested; StreamProxied; StreamClosed])
              end
          | Raised x => (Raised x, ran [ReaderRequested; StreamClosed])
          end
      | Raised x => (Raised x, s1)
      end
    else (Ok None, s1).
Proof.
  cbn zeta.
  destruct (call renew_live_stream_session w s) as [[[]|x] s1] eqn:Hrenew;
    [|rewrite call_renew in Hrenew; discriminate].
  cbn [snd]. unfold handle_async_mjpeg_stream. py_step.
  rewrite invoke_call, Hrenew.
  destruct (truthy_str (_live_stream_url (self s1))); cbn [negb];
    [|reflexivity].
  destruct (open_camera w _ _) as [[]|x]; [|reflexivity].
  destruct (get_reader w) as [reader|x];
    [|cbn [self trace]; now rewrite <- !app_assoc].
  destruct (async_aiohttp_proxy_stream w request reader);
    cbn [self trace]; now rewrite <- !app_assoc.
Qed.

Lemma handle_keeps_self :
  self (snd (call (handle_async_mjpeg_stream request) w s))
    = self (snd (call renew_live_stream_session w s)).
Proof.
  rewrite call_handle_async_mjpeg_stream. cbn zeta.
  destruct (truthy_str _); [|reflexivity].
  destruct (open_camera w _ _) as [[]|x]; [|reflexivity].
  destruct (get_reader w) as [reader|x]; [|reflexivity].
  destruct (async_aiohttp_proxy_stream w request reader); reflexivity.
Qed.

(** X14: streaming never touches the still-image cache: after the handler,
    however it ends, the image bytes, the held entry, the recorded image
    id and the image URL are what they were. *)
Theorem stream_keeps_image_cache :
  image_cache (self (snd (call (handle_async_mjpeg_stream request) w s)))
    = image_cache (self s).
Proof.
  rewrite handle_keeps_self, call_renew. cbn [snd].
  destruct (due _ _ _); [|reflexivity]. destruct (self s); reflexivity.
Qed.

(** X15: when the transcoding process cannot be started, the exception of
    [open_camera] leaves the handler as it is, and nothing is asked of the
    process afterwards: no reader, no proxying, no close. *)
Theorem stream_open_failure (x : exn) :
  let s1 := snd (call renew_live_stream_session w s) in
  truthy_str (_live_stream_url (self s1)) = true ->
  open_camera w (default "" (_live_stream_url (self s1)))
              (_ffmpeg_arguments (self s1)) = Raised x ->
  call (handle_async_mjpeg_stream request) w s = (Raised x, s1).
Proof.
  cbn zeta. intros Hlive Hopen.
  rewrite call_handle_async_mjpeg_stream. cbn zeta.
  now rewrite Hlive, Hopen.
Qed.

End Stream.

(** ** The image state the camera keeps *)

Section Coherence.

Import Camera Spec More.

Lemma coherent_kept (c c' : CanaryCamera) :
  _last_event c' = _last_event c ->
  _image_url c' = _image_url c ->
  _last_image_id c' = _last_image_id c \/ is_Some (_last_event c) ->
  coherent c -> coherent c'.
Proof.
  unfold coherent. intros -> -> Hid.
  destruct (_last_event c) as [ev|]; [auto|].
  destruct Hid as [->|[? [=]]]. auto.
Qed.

Lemma check_coherent (w : World) (s : state) :
  coherent (self s) ->
  coherent (self (snd (call _check_for_new_image w s))) /\
  (is_Some (_last_event (self s)) ->
   is_Some (_last_event (self (snd (call _check_for_new_image w s))))).
Proof.
  intros Hs. pose proof (check_outcomes w s) as H.
  destruct (entries (data w) !! device_id (_device (self s)))
    as [[|e rest]|] eqn:He.
  - rewrite H. auto.
  - rewrite (check_entry w s e rest He). cbn [snd self]. split.
    + unfold coherent. destruct (self s); reflexivity.
    + intros _. destruct (self s); cbn; eauto.
  - rewrite H. auto.
Qed.

Lemma fetch_coherent (w : World) (s : state) :
  coherent (self s) ->
  coherent (self (snd (fetch_entry_image w s))) /\
  _last_event (self (snd (fetch_entry_image w s))) = _last_event (self s).
Proof.
  intros Hs. destruct (fetch_entry_image w s) as [c s'] eqn:Hfetch.
  cbn [snd].
  apply fetch_cases in Hfetch as [(_ & -> & _)|(url & _ & Hu & _ & Hrest)];
    [auto|].
  destruct Hrest as [(r & _ & _ & _ & ->)|[(_ & _ & ->)|(x & _ & _ & _ & ->)]];
    auto.
  split; [|destruct (self s); reflexivity].
  apply (coherent_kept (self s)); try (destruct (self s); reflexivity);
    [|exact Hs].
  right. unfold coherent in Hs.
  destruct (_last_event (self s)); [eauto|].
  destruct Hs as [Hnone _]. congruence.
Qed.

Lemma renew_keeps_cache (w : World) (s : state) :
  image_cache (self (snd (call renew_live_stream_session w s)))
    = image_cache (self s).
Proof.
  rewrite call_renew. cbn [snd]. destruct (due _ _ _); [|reflexivity].
  destruct (self s); reflexivity.
Qed.

(** X13: every camera that setup creates is coherent, and the three
    methods that change a camera keep it so whatever they meet and however
    they end: the cached image URL is always the first thumbnail of the
    entry the camera holds, without an entry there is no URL and no
    recorded image id, and an entry once held is never dropped. *)
Theorem image_state_stays_coherent :
  (forall location_id device ffmpeg_args camera,
     Camera.__init__ location_id device ffmpeg_args = Ok camera ->
     coherent camera) /\
  (forall w s width height request,
     coherent (self s) ->
     let after_image := snd (call (async_camera_image width height) w s) in
     let after_stream := snd (call (handle_async_mjpeg_stream request) w s) in
     let after_renewal := snd (call renew_live_stream_session w s) in
     (coherent (self after_image) /\
      coherent (self after_stream) /\
      coherent (self after_renewal)) /\
     (is_Some (_last_event (self s)) ->
      is_Some (_last_event (self after_image)) /\
      is_Some (_last_event (self after_stream)) /\
      is_Some (_last_event (self after_renewal)))).
Proof.
  split.
  { intros location_id device ffmpeg_args camera Hinit.
    made Hinit. rewrite <- Hinit. cbn. auto. }
  intros w s width height request Hs. cbn zeta.
  assert (Hrenew : forall s0, coherent (self s0) ->
            coherent (self (snd (call renew_live_stream_session w s0))) /\
            _last_event (self (snd (call renew_live_stream_session w s0)))
              = _last_event (self s0)).
  { intros s0 H0. pose proof (renew_keeps_cache w s0) as Hk.
    unfold image_cache in Hk. injection Hk as Hi He Hl Hu.
    split; [|exact He]. apply (coherent_kept (self s0)); auto. }
  assert (Hstream :
            self (snd (call (handle_async_mjpeg_stream request) w s))
              = self (snd (call renew_live_stream_session w s))).
  { apply handle_keeps_self. }
  assert (Himage :
            coherent (self (snd (call (async_camera_image width height) w s))) /\
            (is_Some (_last_event (self s)) ->
             is_Some (_last_event
                        (self (snd (call (async_camera_image width height) w s)))))).
  { rewrite call_async_camera_image.
    destruct (check_coherent w s Hs) as [Hc1 Hsome1].
    destruct (call _check_for_new_image w s) as [[[]|x] s1]; cbn [snd] in *;
      [|auto].
    destruct (fetch_coherent w s1 Hc1) as [Hc2 He2].
    destruct (fetch_entry_image w s1) as [[[]|r|x] s2]; cbn [snd] in *;
      try (split; [assumption|intros; rewrite He2; auto]).
    destruct (grab_live_view width height w s2) as [c s3] eqn:Hlive.
    apply live_view_keeps in Hlive as (_ & He3 & Hl3 & Hu3 & _).
    assert (coherent (self s3)) by (apply (coherent_kept (self s2)); auto).
    assert (is_Some (_last_event (self s)) -> is_Some (_last_event (self s3)))
      by (intros; rewrite He3, He2; auto).
    destruct c; auto. }
  destruct (Hrenew s Hs) as [Hr He]. rewrite Hstream.
  split; [tauto|]. intros Hsome. rewrite He. tauto.
Qed.

End Coherence.

Section RequestCalls.

Import Camera Spec More.

Variables (w : World) (s : state).

Lemma check_keeps_static :
  let s1 := snd (call _check_for_new_image w s) in
  _device (self s1) = _device (self s) /\
  _ffmpeg_arguments (self s1) = _ffmpeg_arguments (self s) /\
  trace s1 = trace s.
Proof.
  cbn zeta. pose proof (check_outcomes w s) as H.
  destruct (entries (data w) !! device_id (_device (self s)))
    as [[|e rest]|] eqn:He; try (rewrite H; auto).
  rewrite (check_entry w s e rest He). cbn [snd self trace].
  destruct (self s); auto.
Qed.

Lemma fetch_keeps_static :
  let s1 := snd (fetch_entry_image w s) in
  _device (self s1) = _device (self s) /\
  _ffmpeg_arguments (self s1) = _ffmpeg_arguments (self s) /\
  (trace s1 = trace s \/ exists url, trace s1 = trace s ++ [HttpGet url 10]).
Proof.
  cbn zeta. destruct (fetch_entry_image w s) as [c s1] eqn:Hfetch. cbn [snd].
  apply fetch_cases in Hfetch as [(_ & -> & _)|(url & _ & _ & Ht & Hrest)];
    [auto|].
  assert (Hs : _device (self s1) = _device (self s) /\
               _ffmpeg_arguments (self s1) = _ffmpeg_arguments (self s)).
  { destruct Hrest as [(r & _ & _ & _ & ->)|[(_ & _ & ->)|(x & _ & _ & _ & ->)]];
      auto. }
  destruct Hs. eauto.
Qed.

End RequestCalls.

Section RequestShape.

Import Camera Spec More.

Variables (w : World) (s : state).

(** X12: a still-image request calls its collaborators in one order and
    each at most once: the GET of the thumbnail, then the renewal of the
    session, then the grab of a frame; it never starts a stream. *)
Theorem request_calls_in_order (width height : option Z) :
  let s' := snd (call (async_camera_image width height) w s) in
  exists gets sessions grabs,
    trace s' = trace s ++ gets ++ sessions ++ grabs /\
    (gets = [] \/ exists url, gets = [HttpGet url 10]) /\
    (sessions = [] \/ sessions = renewal (self s)) /\
    (grabs = [] \/
     exists live, grabs = [ImageGrabbed live (_ffmpeg_arguments (self s))]).
Proof.
  cbn zeta. rewrite call_async_camera_image.
  destruct (check_keeps_static w s) as (Hd1 & Ha1 & Ht1).
  destruct (call _check_for_new_image w s) as [[[]|x] s1]; cbn [snd] in *.
  2: { exists [], [], []. rewrite Ht1, !app_nil_r. auto. }
  destruct (fetch_keeps_static w s1) as (Hd2 & Ha2 & Ht2).
  destruct (fetch_entry_image w s1) as [c s2]; cbn [snd] in *.
  assert (Hgets : exists gets, trace s2 = trace s ++ gets /\
                    (gets = [] \/ exists url, gets = [HttpGet url 10])).
  { destruct Ht2 as [->|[url ->]]; rewrite Ht1.
    - exists []. rewrite app_nil_r. auto.
    - eauto. }
  destruct Hgets as (gets & Hgets & Hshape).
  destruct c as [[]|r|x].
  2: { exists gets, [], []. cbn [snd]. rewrite Hgets, !app_nil_r. auto. }
  2: { exists gets, [], []. cbn [snd]. rewrite Hgets, !app_nil_r. auto. }
  rewrite live_view. destruct (is_None (_image (self s2))).
  2: { exists gets, [], []. cbn [snd]. rewrite Hgets, !app_nil_r. auto. }
  rewrite call_renew. cbn [snd].
  assert (Hrenewal : renewal (self s2) = renewal (self s))
    by (unfold renewal; now rewrite Hd2, Hd1).
  destruct (due _ _ _); cbn [self trace].
  - replace (_ffmpeg_arguments (renewed w (self s2)))
      with (_ffmpeg_arguments (self s))
      by (rewrite <- Ha1, <- Ha2; destruct (self s2); reflexivity).
    destruct (truthy_str _); cbn [snd trace].
    + exists gets, (renewal (self s)), [ImageGrabbed
        (default "" (_live_stream_url (renewed w (self s2))))
        (_ffmpeg_arguments (self s))].
      rewrite Hgets, Hrenewal, <- !app_assoc. eauto 10.
    + exists gets, (renewal (self s)), [].
      rewrite Hgets, Hrenewal, app_nil_r, <- app_assoc. auto.
  - rewrite Ha2, Ha1. destruct (truthy_str _); cbn [snd trace].
    + exists gets, [], [ImageGrabbed (default "" (_live_stream_url (self s2)))
                         (_ffmpeg_arguments (self s))].
      rewrite Hgets, <- app_assoc. cbn [app]. eauto 10.
    + exists gets, [], []. rewrite Hgets, !app_nil_r. auto.
Qed.

End RequestShape.

(** ** The camera and its location *)

Section CameraLocation.

Import Camera Spec More.

Local Abbreviation getitem_items := CameraEntity.getitem_items.

Lemma getitem_items_found {V : Type} (d : list (string * V)) (k : string) (v : V) :
  getitem_items d k = Ok v -> In (k, v) d.
Proof.
  induction d as [|[k' v'] d IH]; simpl; [discriminate|].
  destruct (String.eqb_spec k' k) as [->|_]; [intros [= ->]; now left|auto].
Qed.

Lemma getitem_items_key {V : Type} (d : list (string * V)) (k : string) :
  In k (map fst d) -> exists v, getitem_items d k = Ok v.
Proof.
  induction d as [|[k' v'] d IH]; simpl; [intros []|].
  destruct (String.eqb_spec k' k) as [->|Hne]; [eauto|].
  intros [Heq|Hin]; [contradiction|auto].
Qed.

Lemma getitem_items_missing {V : Type} (d : list (string * V)) (k : string) :
  ~ In k (map fst d) -> getitem_items d k = Raised KeyError.
Proof.
  induction d as [|[k' v'] d IH]; simpl; [reflexivity|].
  destruct (String.eqb_spec k' k) as [->|Hne]; intros Hnot;
    [destruct Hnot; now left|auto].
Qed.

Lemma getitem_items_unique {V : Type} (d : list (string * V)) (k : string) (v : V) :
  NoDup (map fst d) -> In (k, v) d -> getitem_items d k = Ok v.
Proof.
  induction d as [|[k' v'] d IH]; simpl; [intros _ []|].
  intros Hnodup [[= -> ->]|Hin].
  - now rewrite String.eqb_refl.
  - apply NoDup_cons in Hnodup as [Hfresh Hnodup].
    destruct (String.eqb_spec k' k) as [->|_]; [|auto].
    destruct Hfresh. apply list_elem_of_In, in_map_iff. now exists (k, v).
Qed.

Lemma call_location (w : World) (s : state) :
  call CameraEntity.location w s =
    match getitem_items (locations (data w)) (_location_id (self s)) with
    | Ok found => (Ok found, s)
    | Raised x => (Raised x, s)
    end.
Proof.
  unfold CameraEntity.location. py_run.
  destruct (getitem_items _ _); reflexivity.
Qed.

(** X16: motion detection is reported enabled exactly when the camera's
    location is not recording.  When the location has left the snapshot
    neither accessor absorbs the miss: both raise KeyError.  Neither ever
    changes the camera. *)
Theorem motion_detection_mirrors_recording (w : World) (s : state) :
  (In (_location_id (self s)) (map fst (locations (data w))) ->
   exists recording,
     call CameraEntity.is_recording w s = (Ok recording, s) /\
     call CameraEntity.motion_detection_enabled w s = (Ok (negb recording), s)) /\
  (~ In (_location_id (self s)) (map fst (locations (data w))) ->
   call CameraEntity.is_recording w s = (Raised KeyError, s) /\
   call CameraEntity.motion_detection_enabled w s = (Raised KeyError, s)).
Proof.
  unfold CameraEntity.is_recording, CameraEntity.motion_detection_enabled.
  split.
  - intros [found Hfound]%getitem_items_key.
    exists (is_recording found). py_step.
    rewrite !invoke_call, call_location, Hfound. auto.
  - intros Hmissing%getitem_items_missing. py_step.
    rewrite !invoke_call, call_location, Hmissing. auto.
Qed.

(** X17: a camera that setup created finds its location in the snapshot it
    was created from, so its recording flags do not raise there; and as
    the location ids of the snapshot are distinct, the location it finds
    is the one that lists its device. *)
Theorem setup_camera_finds_location (w : World) (ffmpeg_arguments : string)
    (cameras : list CanaryCamera) (camera : CanaryCamera) (log : list event) :
  Camera.async_setup_entry (data w) ffmpeg_arguments = Ok cameras ->
  In camera cameras ->
  let s := {| self := camera; trace := log |} in
  (exists found,
     call CameraEntity.location w s = (Ok found, s) /\
     call CameraEntity.is_recording w s = (Ok (is_recording found), s)) /\
  (NoDup (map fst (locations (data w))) ->
   exists found,
     call CameraEntity.location w s = (Ok found, s) /\
     In (_device camera) (devices found) /\
     is_online (_device camera) = true).
Proof.
  rewrite camera_setup. intros Hmade%collect_Ok Hin%(in_map Ok).
  rewrite <- Hmade in Hin. unfold cameras_for in Hin. cbn zeta.
  apply in_map_iff in Hin as [[[location_id location] device] [Hinit Ho]].
  made Hinit. rewrite <- Hinit.
  apply filter_In in Ho as [Ho Hon]. unfold device_occurrences in Ho.
  apply in_flat_map in Ho as [[lid loc] [Hloc Hdev]].
  apply in_map_iff in Hdev as [device' [[= -> -> ->] Hdev]].
  split.
  - destruct (getitem_items_key (locations (data w)) location_id)
      as [found Hfound].
    { apply in_map_iff. now exists (location_id, location). }
    exists found. rewrite call_location. cbn [self _location_id].
    rewrite Hfound. split; [reflexivity|].
    unfold CameraEntity.is_recording. py_step.
    rewrite invoke_call, call_location.
    cbn [self _location_id]. now rewrite Hfound.
  - intros Hnodup. exists location. rewrite call_location.
    cbn [self _location_id _device].
    rewrite (getitem_items_unique _ _ _ Hnodup Hloc). auto.
Qed.

End CameraLocation.

(** ** Unique ids *)

Section UniqueIds.

Import Spec More.

Lemma pretty_N_go_no_underscore (x : N) (s : string) :
  no_underscore s -> no_underscore (pretty_N_go x s).
Proof.
  revert s. induction (N.lt_wf_0 x) as [x _ IH]; intros s Hs.
  assert (x = 0 \/ 0 < x)%N as [->|Hpos] by lia.
  - now rewrite pretty_N_go_0.
  - rewrite pretty_N_go_step by done. apply IH.
    + now apply N.div_lt.
    + split; [|exact Hs]. unfold pretty_N_char.
      repeat case_match; discriminate.
Qed.

Lemma pretty_N_no_underscore (x : N) : no_underscore (pretty x).
Proof.
  unfold pretty, pretty_N. case_decide.
  - split; [discriminate|exact I].
  - now apply pretty_N_go_no_underscore.
Qed.

Lemma pretty_Z_no_underscore (x : Z) : no_underscore (pretty x).
Proof.
  destruct x as [|p|p]; unfold pretty, pretty_Z.
  - split; [discriminate|exact I].
  - apply pretty_N_no_underscore.
  - split; [discriminate|apply pretty_N_no_underscore].
Qed.

Lemma split_at_underscore (a a' b b' : string) :
  no_underscore a -> no_underscore a' ->
  a +:+ "_" +:+ b = a' +:+ "_" +:+ b' -> a = a' /\ b = b'.
Proof.
  revert a'. induction a as [|c a IH]; intros [|c' a']; cbn.
  - intros _ _ H. injection H as H. auto.
  - intros _ [Hc _] H. injection H as H _. congruence.
  - intros [Hc _] _ H. injection H as H _. congruence.
  - intros [_ Ha] [_ Ha'] H. injection H as Hc Hrest.
    destruct (IH a' Ha Ha' Hrest) as [Ha0 Hb]. split; congruence.
Qed.

Lemma sensor_entity_made (metric : Sensor.SensorTypeItem)
    (location : Location) (device : Device)
    (entity : SensorEntity.CanarySensorEntity) :
  SensorEntity.__init__ metric location device = Ok entity ->
  Sensor.__init__ metric location device = Ok (SensorEntity.sensor entity) /\
  SensorEntity._attr_unique_id entity
    = pretty (device_id device) +:+ "_" +:+ Sensor.st_name metric.
Proof.
  unfold SensorEntity.__init__.
  destruct (Sensor.__init__ metric location device); [|discriminate].
  intros [= <-]. auto.
Qed.

Lemma camera_entity_made (location_id : string) (device : Device)
    (ffmpeg_args : string) (entity : CameraEntity.CanaryCameraEntity) :
  CameraEntity.__init__ location_id device ffmpeg_args = Ok entity ->
  Camera.__init__ location_id device ffmpeg_args
    = Ok (CameraEntity.camera entity) /\
  CameraEntity._attr_unique_id entity = pretty (device_id device).
Proof.
  unfold CameraEntity.__init__.
  destruct (Camera.__init__ location_id device ffmpeg_args); [|discriminate].
  intros [= <-]. auto.
Qed.

(** X5: the unique id of a sensor tells its device and its metric apart
    from every other: two sensors get the same unique id exactly when
    they have the same device id and the same metric name. *)
Theorem sensor_unique_id_inj (metric1 metric2 : Sensor.SensorTypeItem)
    (location1 location2 : Location) (device1 device2 : Device)
    (sensor1 sensor2 : SensorEntity.CanarySensorEntity) :
  SensorEntity.__init__ metric1 location1 device1 = Ok sensor1 ->
  SensorEntity.__init__ metric2 location2 device2 = Ok sensor2 ->
  SensorEntity._attr_unique_id sensor1 = SensorEntity._attr_unique_id sensor2
  <-> device_id device1 = device_id device2 /\
      Sensor.st_name metric1 = Sensor.st_name metric2.
Proof.
  intros [_ ->]%sensor_entity_made [_ ->]%sensor_entity_made. split.
  - intros [Hid Hname]%split_at_underscore;
      try apply pretty_Z_no_underscore.
    split; [now apply (inj pretty)|exact Hname].
  - intros [-> ->]. reflexivity.
Qed.

Lemma NoDup_keyed {A K B : Type} (key : A -> K) (h : A -> list B) (l : list A) :
  NoDup (map key l) ->
  (forall x, In x l -> NoDup (h x)) ->
  NoDup (flat_map (fun x => map (pair (key x)) (h x)) l).
Proof.
  induction l as [|x l IH]; simpl; intros Hkeys Hh; [constructor|].
  apply NoDup_cons in Hkeys as [Hfresh Hkeys].
  apply NoDup_app. split; [|split].
  - apply NoDup_fmap_2; [intros b b' [= ->]; reflexivity|auto].
  - intros [k b] Hhead Htail.
    apply list_elem_of_In, in_map_iff in Hhead as [b0 [[= <- <-] _]].
    apply list_elem_of_In, in_flat_map in Htail as [y [Hy Hin]].
    apply in_map_iff in Hin as [b1 [[= Hk _] _]].
    apply Hfresh, list_elem_of_In, in_map_iff. eauto.
  - apply IH; auto.
Qed.

Lemma map_of_flat_map {A B C : Type} (f : B -> C) (g : A -> list B) (l : list A) :
  map f (flat_map g l) = flat_map (fun x => map f (g x)) l.
Proof.
  induction l as [|x l IH]; simpl; [reflexivity|]. now rewrite map_app, IH.
Qed.

Lemma collect_map {A B : Type} (f : A -> B) (l : list (outcome A)) :
  collect (map (outcome_map f) l) = outcome_map (map f) (collect l).
Proof.
  induction l as [|[a|e] l IH]; simpl; [reflexivity| |reflexivity].
  rewrite IH. destruct (collect l); reflexivity.
Qed.

(** What the things made have in common with the calls that made them. *)
Lemma map_made {A B C : Type} (f : A -> outcome B) (g : B -> C) (h : A -> C)
    (l : list A) (made : list B) :
  map f l = map Ok made ->
  (forall x b, In x l -> f x = Ok b -> g b = h x) ->
  map g made = map h l.
Proof.
  revert made. induction l as [|x l IH]; intros [|b made]; simpl;
    try discriminate; [reflexivity|].
  intros [= Hx Hl] Hgh. f_equal; [now apply Hgh; auto|].
  apply IH; auto.
Qed.

Variable data : CanaryData.

Lemma sensor_entity_setup :
  SensorEntity.async_setup_entry data =
    collect
      (flat_map (fun '(_, location, device) =>
                   map (fun metric => SensorEntity.__init__ metric location device)
                       (List.filter (supports device) Sensor.SENSOR_TYPES))
                (List.filter online (device_occurrences data))).
Proof.
  unfold SensorEntity.async_setup_entry, device_occurrences.
  rewrite (for_each_appends _
    (fun o : string * Location =>
       flat_map (fun device =>
                   map (fun metric => SensorEntity.__init__ metric (snd o) device)
                       (List.filter (supports device) Sensor.SENSOR_TYPES))
                (List.filter is_online (devices (snd o))))).
  - rewrite appended_nil. f_equal.
    rewrite <- flat_map_filter, flat_map_flat_map.
    apply flat_map_ext. intros [location_id location].
    rewrite flat_map_map, <- flat_map_filter. reflexivity.
  - intros acc [location_id location].
    rewrite (for_each_appends _
      (fun device =>
         if is_online device
         then map (fun metric => SensorEntity.__init__ metric location device)
                  (List.filter (supports device) Sensor.SENSOR_TYPES)
         else [])).
    + now rewrite flat_map_filter.
    + intros acc' device. destruct (is_online device);
        [|now rewrite appended_none].
      cbv zeta.
      rewrite (for_each_appends _
        (fun metric => if supports device metric
                       then [SensorEntity.__init__ metric location device]
                       else [])).
      * now rewrite flat_map_filter_map.
      * intros acc'' metric. unfold supports.
        destruct (Sensor.name_in _ _);
          [now rewrite appended_one|now rewrite appended_none].
Qed.

Lemma camera_entity_setup (ffmpeg_arguments : string) :
  CameraEntity.async_setup_entry data ffmpeg_arguments =
    collect
      (map (fun '(location_id, _, device) =>
              CameraEntity.__init__ location_id device ffmpeg_arguments)
           (List.filter online (device_occurrences data))).
Proof.
  unfold CameraEntity.async_setup_entry, device_occurrences.
  rewrite (for_each_appends _
    (fun o : string * Location =>
       map (fun device => CameraEntity.__init__ (fst o) device ffmpeg_arguments)
           (List.filter is_online (devices (snd o))))).
  - rewrite appended_nil. f_equal.
    rewrite <- flat_map_filter_map, flat_map_flat_map.
    apply flat_map_ext. intros [location_id location].
    rewrite flat_map_map, <- flat_map_filter_map. reflexivity.
  - intros acc [location_id location].
    rewrite (for_each_appends _
      (fun device => if is_online device
                     then [CameraEntity.__init__ location_id device ffmpeg_arguments]
                     else [])).
    + now rewrite flat_map_filter_map.
    + intros acc' device. destruct (is_online device);
        [now rewrite appended_one|now rewrite appended_none].
Qed.

(** X6: the entities that setup creates are the adapters seen so far
    with their unique ids, and setup of the entities ends as setup of the
    adapters does; when the online devices of the snapshot have distinct
    device ids, no two sensors and no two cameras that setup returns have
    the same unique id. *)
Theorem setup_unique_ids_differ (ffmpeg_arguments : string) :
  outcome_map (map SensorEntity.sensor) (SensorEntity.async_setup_entry data)
    = Sensor.async_setup_entry data /\
  outcome_map (map CameraEntity.camera)
              (CameraEntity.async_setup_entry data ffmpeg_arguments)
    = Camera.async_setup_entry data ffmpeg_arguments /\
  (NoDup (map device_id (online_devices data)) ->
   (forall sensors,
      SensorEntity.async_setup_entry data = Ok sensors ->
      NoDup (map SensorEntity._attr_unique_id sensors)) /\
   (forall cameras,
      CameraEntity.async_setup_entry data ffmpeg_arguments = Ok cameras ->
      NoDup (map CameraEntity._attr_unique_id cameras))).
Proof.
  rewrite sensor_entity_setup, camera_entity_setup, sensor_setup, camera_setup.
  unfold online_devices, sensors_for, cameras_for.
  set (found := List.filter online (device_occurrences data)).
  split; [|split].
  - rewrite <- collect_map. f_equal.
    rewrite map_of_flat_map. apply flat_map_ext. intros [[lid loc] d].
    rewrite map_map. apply map_ext. intros metric.
    unfold SensorEntity.__init__.
    now destruct (Sensor.__init__ metric loc d).
  - rewrite <- collect_map. f_equal.
    rewrite map_map. apply map_ext. intros [[lid loc] d].
    unfold CameraEntity.__init__.
    now destruct (Camera.__init__ lid d ffmpeg_arguments).
  - intros Hids. split.
    + intros sensors Hmade%collect_Ok.
      assert (Hpairs :
        flat_map (fun '(_, location, device) =>
                    map (fun metric => SensorEntity.__init__ metric location device)
                        (List.filter (supports device) Sensor.SENSOR_TYPES))
                 found
        = map (fun p : Device * (Location * Sensor.SensorTypeItem) =>
                 SensorEntity.__init__ (snd (snd p)) (fst (snd p)) (fst p))
              (flat_map (fun '(_, location, device) =>
                           map (fun metric => (device, (location, metric)))
                               (List.filter (supports device) Sensor.SENSOR_TYPES))
                        found)).
      { rewrite map_of_flat_map. apply flat_map_ext. intros [[lid loc] d].
        now rewrite map_map. }
      rewrite Hpairs in Hmade.
      rewrite (map_made _ SensorEntity._attr_unique_id
                 (fun p => pretty (device_id (fst p)) +:+ "_"
                           +:+ Sensor.st_name (snd (snd p))) _ _ Hmade)
        by (intros p entity _ [_ Hid]%sensor_entity_made; exact Hid).
      replace (map _ _) with
        (map (fun p : Z * string => pretty (fst p) +:+ "_" +:+ snd p)
           (flat_map (fun d => map (pair (device_id d))
                                 (map Sensor.st_name
                                    (List.filter (supports d) Sensor.SENSOR_TYPES)))
                     (map snd found))).
      * apply NoDup_fmap_2.
        { intros [i n] [i' n'] [Hi Hn]%split_at_underscore;
            try apply pretty_Z_no_underscore.
          cbn in *. apply (inj pretty) in Hi. congruence. }
        apply (NoDup_keyed device_id); [exact Hids|].
        intros d _.
        assert (Hsub : forall l, NoDup (map Sensor.st_name l) ->
                  NoDup (map Sensor.st_name (List.filter (supports d) l))).
        { induction l as [|m l IH]; simpl; [auto|].
          intros [Hm Hl]%NoDup_cons. destruct (supports d m); simpl; [|auto].
          apply NoDup_cons. split; [|auto].
          intros Hin. apply Hm.
          apply list_elem_of_In, in_map_iff in Hin as [m' [Hname Hin]].
          apply filter_In in Hin as [Hin _].
          apply list_elem_of_In, in_map_iff. eauto. }
        apply Hsub, metrics_listed_once.
      * rewrite !map_of_flat_map, flat_map_map. apply flat_map_ext.
        intros [[lid loc] d]. now rewrite !map_map.
    + intros cameras Hmade%collect_Ok.
      rewrite (map_made _ CameraEntity._attr_unique_id
                 (fun o : string * Location * Device =>
                    pretty (device_id (snd o))) _ _ Hmade).
      * rewrite <- (map_map snd (fun d => pretty (device_id d))).
        rewrite <- (map_map device_id pretty).
        apply NoDup_fmap_2; [apply _|exact Hids].
      * intros [[lid loc] d] entity _ [_ Hid]%camera_entity_made. exact Hid.
Qed.

End UniqueIds.

(** ** More on the sensors *)

Section SensorTheorems.

Import Sensor Spec More.

(** X1: the three accessors of a sensor never raise, whatever the
    snapshot holds and whatever the sensor is.  A device missing from the
    readings gives no reading, no attribute and, for a sensor of the
    "reading" type, no value.  For a sensor of the "entry" type a device
    missing from the entries gives no value, and an empty entry list
    gives 0 for entries_captured_today and no value for any other
    metric.  A sensor whose data type is neither of the two reports no
    value. *)
Theorem sensor_never_raises (data : CanaryData) (self : CanarySensor) :
  (exists r v a,
     call (reading self) data tt = (Ok r, tt) /\
     call (native_value self) data tt = (Ok v, tt) /\
     call (extra_state_attributes self) data tt = (Ok a, tt)) /\
  (readings data !! _device_id self = None ->
   call (reading self) data tt = (Ok None, tt) /\
   call (extra_state_attributes self) data tt = (Ok None, tt) /\
   (_canary_data_type self = Some "reading"%string ->
    call (native_value self) data tt = (Ok None, tt))) /\
  (_canary_data_type self = Some "entry"%string ->
   (entries data !! _device_id self = None ->
    call (native_value self) data tt = (Ok None, tt)) /\
   (entries data !! _device_id self = Some [] ->
    call (native_value self) data tt =
      (Ok (if String.eqb (st_name (_sensor_type self)) "entries_captured_today"
           then Some (SVint 0) else None), tt))) /\
  (_canary_data_type self <> Some "reading"%string ->
   _canary_data_type self <> Some "entry"%string ->
   call (native_value self) data tt = (Ok None, tt)).
Proof.
  rewrite call_native_value, call_extra_state_attributes, call_reading.
  cbn [fst]. split; [|split; [|split]].
  - eexists _, _, _. repeat split.
  - intros ->. split; [reflexivity|].
    split; [now destruct (String.eqb _ _)|]. now intros ->.
  - intros ->. cbn [opt_str_eqb String.eqb Ascii.eqb Bool.eqb].
    split; intros ->; [reflexivity|].
    destruct (String.eqb _ "entries_captured_today"); [reflexivity|].
    now destruct (String.eqb _ _).
  - intros Hreading Hentry.
    destruct (_canary_data_type self) as [t|]; [|reflexivity].
    cbn [opt_str_eqb].
    destruct (String.eqb_spec t "reading") as [->|_]; [now destruct Hreading|].
    destruct (String.eqb_spec t "entry") as [->|_]; [now destruct Hentry|].
    reflexivity.
Qed.

(** X2: a sensor exposes the air quality attribute exactly when it is the
    air_quality sensor and has a value to report. *)
Theorem attribute_iff_air_quality_value (metric : SensorTypeItem)
    (location : Location) (device : Device) (data : CanaryData)
    (self : CanarySensor) :
  Sensor.__init__ metric location device = Ok self ->
  (exists a, fst (call (extra_state_attributes self) data tt) = Ok (Some a))
  <-> st_name metric = "air_quality"%string /\
      exists v, fst (call (native_value self) data tt) = Ok (Some v).
Proof.
  intros Hinit.
  rewrite call_extra_state_attributes, call_native_value, call_reading.
  cbn [fst].
  assert (Hfields : _sensor_type self = metric /\
                    _device_id self = device_id device).
  { pose proof Hinit as Hself. made Hself. rewrite <- Hself. auto. }
  destruct Hfields as [-> ->].
  destruct (String.eqb_spec (st_name metric) "air_quality") as [Hname|Hname].
  - destruct (init_reading_metric metric location device self AIR_QUALITY Hinit)
      as [Htype Hkind]; [unfold reading_metric; now rewrite Hname|].
    rewrite Htype, Hkind. cbn [opt_str_eqb String.eqb Ascii.eqb Bool.eqb].
    destruct (readings data !! device_id device) as [l|];
      [destruct (next_value l (Some AIR_QUALITY))|]; cbn; split;
      try (intros [a [=]]); try (intros [_ [v [=]]]); eauto.
  - split; [intros [a [=]]|intros [? _]; contradiction].
Qed.

(** X3: sensor setup returns, and every sensor it has made has a vendor
    kind and a data type ("reading" or "entry"), so its value is never
    lost to the final [return None] of an unknown type; and its device has
    a model name, one of the three the table knows. *)
Theorem setup_sensors_are_typed (data : CanaryData) :
  exists sensors,
    Sensor.async_setup_entry data = Ok sensors /\
    forall sensor, In sensor sensors ->
      is_Some (_canary_type sensor) /\
      (_canary_data_type sensor = Some "reading"%string \/
       _canary_data_type sensor = Some "entry"%string) /\
      exists model,
        _attr_device_info_model sensor = Some model /\
        In model [CANARY_PRO; CANARY_FLEX; CANARY_VIEW].
Proof.
  rewrite sensor_setup.
  destruct (sensors_made (List.filter online (device_occurrences data)))
    as [sensors Hmade].
  exists sensors. split; [now apply collect_Ok|].
  intros sensor Hin%(in_map Ok). rewrite <- Hmade in Hin.
  unfold sensors_for in Hin.
  apply in_flat_map in Hin as [[[lid loc] d] [_ Hs]].
  apply in_map_iff in Hs as [m [Hinit Hm]].
  apply filter_In in Hm as [Hm Hsup].
  unfold supports, dict_get, name_in in Hsup.
  assert (Htable :
    Forall (fun m =>
              (forall one, Sensor.__init__ m loc d = Ok one ->
                 is_Some (_canary_type one) /\
                 (_canary_data_type one = Some "reading"%string \/
                  _canary_data_type one = Some "entry"%string)) /\
              forall n, In n (st_products m) ->
                        In n [CANARY_PRO; CANARY_FLEX; CANARY_VIEW])
           SENSOR_TYPES).
  { repeat (apply List.Forall_cons;
              [split;
               [intros one Hone; made Hone; rewrite <- Hone;
                cbn; eauto
               |cbn; tauto]|]).
    apply List.Forall_nil. }
  rewrite Forall_forall in Htable.
  destruct (Htable m (proj2 (list_elem_of_In _ _) Hm)) as (Htyped & Hlisted).
  destruct (Htyped sensor Hinit) as [Hkind Htype].
  split; [exact Hkind|]. split; [exact Htype|].
  made Hinit. rewrite <- Hinit. cbn [_attr_device_info_model].
  destruct model as [model|]; [|discriminate].
  apply existsb_exists in Hsup as [n [Hn ->%String.eqb_eq]].
  eauto.
Qed.

Lemma sensors_for_length (l : list (string * Location * Device)) :
  length (sensors_for l) =
    list_sum (map (fun o => sensors_of_model
                              (dict_get (device_type (snd o)) "name")) l).
Proof.
  induction l as [|[[lid loc] d] l IH]; simpl; [reflexivity|].
  rewrite length_app, IH, length_map. reflexivity.
Qed.

(** X4: sensor setup makes six sensors for each online Canary Pro, four
    for each Canary Flex, two for each Canary View and none for a device
    of any other model or without a model name. *)
Theorem sensors_per_device (data : CanaryData) :
  (exists sensors,
     Sensor.async_setup_entry data = Ok sensors /\
     length sensors =
       list_sum (map (fun device =>
                        sensors_of_model (dict_get (device_type device) "name"))
                     (online_devices data))) /\
  sensors_of_model (Some CANARY_PRO) = 6%nat /\
  sensors_of_model (Some CANARY_FLEX) = 4%nat /\
  sensors_of_model (Some CANARY_VIEW) = 2%nat /\
  (forall model,
     model <> Some CANARY_PRO -> model <> Some CANARY_FLEX ->
     model <> Some CANARY_VIEW -> sensors_of_model model = 0%nat).
Proof.
  split.
  - rewrite sensor_setup.
    destruct (sensors_made (List.filter online (device_occurrences data)))
      as [sensors Hmade].
    exists sensors. split; [now apply collect_Ok|].
    rewrite <- (length_map Ok), <- Hmade, sensors_for_length.
    unfold online_devices. now rewrite map_map.
  - repeat (split; [reflexivity|]).
    intros [n|] Hpro Hflex Hview; [|reflexivity].
    unfold sensors_of_model, name_in. cbn.
    destruct (String.eqb_spec n CANARY_PRO) as [->|_]; [contradiction|].
    destruct (String.eqb_spec n CANARY_FLEX) as [->|_]; [contradiction|].
    destruct (String.eqb_spec n CANARY_VIEW) as [->|_]; [contradiction|].
    reflexivity.
Qed.

End SensorTheorems.

(** ** More on the household *)

Section MoreOnTheHousehold.

Import Sensor Camera Spec More Examples.

Lemma returned_image_is_cached_witness :
  Some jpeg = _image (self state1) /\ None = _image (self state2).
Proof.
  split.
  - apply (returned_image_is_cached request1 fresh None None). reflexivity.
  - apply (returned_image_is_cached request2 state1 None None).
    vm_compute. reflexivity.
Defined.

Lemma uncaught_fetch_error_propagates_witness :
  let away := world (snapshot [entry5] None) 1000 (Raised CancelledError)
                    rtsp (Some frame) (Ok 2) in
  fst (call (async_camera_image None None) away fresh) = Raised CancelledError /\
  trace (snd (call (async_camera_image None None) away fresh))
    = [HttpGet "https://t/5.jpg" 10].
Proof.
  cbn zeta.
  rewrite (uncaught_fetch_error_propagates
             (world (snapshot [entry5] None) 1000 (Raised CancelledError)
                    rtsp (Some frame) (Ok 2))
             fresh None None
             (snd (call _check_for_new_image
                        (world (snapshot [entry5] None) 1000
                               (Raised CancelledError) rtsp (Some frame) (Ok 2))
                        fresh))
             "https://t/5.jpg" CancelledError);
    [split; reflexivity|reflexivity|reflexivity|reflexivity|discriminate
    |reflexivity|reflexivity].
Defined.

Lemma cached_image_is_served_witness :
  exists s',
    call (async_camera_image None None) request4 state1 = (Ok (Some jpeg), s') /\
    trace s' = trace state1 /\
    _image (self s') = Some jpeg /\
    _last_image_id (self s') = Some 5.
Proof.
  apply (cached_image_is_served request4 state1 None None entry5 []);
    reflexivity.
Defined.

Lemma fetched_image_is_served_again_witness :
  fst (call (async_camera_image None None) request1 fresh) = Ok (Some jpeg) /\
  exists s3,
    call (async_camera_image None None) request4 state1 = (Ok (Some jpeg), s3) /\
    trace s3 = trace state1.
Proof.
  apply (fetched_image_is_served_again request1 request4 fresh entry5 entry5
           [] [] "https://t/5.jpg" {| is_success := true; content := jpeg |}
           None None None None); try reflexivity.
  discriminate.
Defined.

Lemma image_state_stays_coherent_witness :
  coherent (self state1) /\ coherent (self state2).
Proof.
  destruct image_state_stays_coherent as [Hfresh Hkept].
  assert (H1 : coherent (self state1)).
  { destruct (Hkept request1 fresh None None 7) as [(H & _) _]; [|exact H].
    apply (Hfresh "home"%string porch "-pred 1"%string). reflexivity. }
  split; [exact H1|].
  destruct (Hkept request2 state1 None None 7 H1) as [(H & _) _]. exact H.
Defined.

Lemma stream_open_failure_witness :
  call (handle_async_mjpeg_stream 7) stuck fresh =
    (Raised CancelledError,
     snd (call renew_live_stream_session stuck fresh)) /\
  trace (snd (call (handle_async_mjpeg_stream 7) stuck fresh))
    = [SessionRequested 1; RenewStarted].
Proof.
  assert (H : call (handle_async_mjpeg_stream 7) stuck fresh =
                (Raised CancelledError,
                 snd (call renew_live_stream_session stuck fresh)))
    by (apply (stream_open_failure stuck fresh 7 CancelledError); reflexivity).
  split; [exact H|]. rewrite H. reflexivity.
Defined.

Lemma motion_detection_mirrors_recording_witness :
  call CameraEntity.motion_detection_enabled stuck door_camera
    = (Ok false, door_camera) /\
  call CameraEntity.is_recording stuck sold_camera
    = (Raised KeyError, sold_camera).
Proof.
  split.
  - destruct (motion_detection_mirrors_recording stuck door_camera) as [H _].
    destruct H as (recording & Hrec & Hmotion).
    + cbn. auto.
    + rewrite Hmotion. f_equal. f_equal.
      assert (Heq : (Ok recording, door_camera) = (Ok true, door_camera))
        by (rewrite <- Hrec; reflexivity).
      injection Heq as ->. reflexivity.
  - destruct (motion_detection_mirrors_recording stuck sold_camera) as [_ H].
    apply H. cbn. intros [H0|[H0|[]]]; discriminate.
Defined.

Lemma setup_camera_finds_location_witness :
  exists found,
    call CameraEntity.location stuck door_camera = (Ok found, door_camera) /\
    In door (devices found) /\
    is_online door = true.
Proof.
  destruct (setup_camera_finds_location stuck "-pred 1"
              (built (Camera.async_setup_entry two_homes "-pred 1"))
              (self door_camera) [])
    as [_ H].
  - reflexivity.
  - vm_compute. auto 6.
  - apply H. apply (bool_decide_unpack _). vm_compute. reflexivity.
Defined.

Lemma sensor_unique_id_inj_witness :
  SensorEntity._attr_unique_id (built (SensorEntity.__init__ wifi home porch))
    <> SensorEntity._attr_unique_id
         (built (SensorEntity.__init__ wifi home attic)) /\
  SensorEntity._attr_unique_id (built (SensorEntity.__init__ wifi home porch))
    = SensorEntity._attr_unique_id
        (built (SensorEntity.__init__ wifi cabin porch)).
Proof.
  split.
  - intros H.
    apply (sensor_unique_id_inj wifi wifi home home porch attic
             _ _ eq_refl eq_refl) in H as [H _].
    discriminate.
  - apply (sensor_unique_id_inj wifi wifi home cabin porch porch
             _ _ eq_refl eq_refl).
    split; reflexivity.
Defined.

Lemma setup_unique_ids_differ_witness :
  NoDup (map SensorEntity._attr_unique_id
             (built (SensorEntity.async_setup_entry (snapshot [] None)))) /\
  NoDup (map CameraEntity._attr_unique_id
             (built (CameraEntity.async_setup_entry (snapshot [] None)
                                                     "-pred 1"))).
Proof.
  destruct (setup_unique_ids_differ (snapshot [] None) "-pred 1")
    as (_ & _ & H).
  destruct H as [Hsensors Hcameras].
  { apply (bool_decide_unpack _). vm_compute. reflexivity. }
  split; [apply Hsensors|apply Hcameras]; reflexivity.
Defined.

Lemma sensor_never_raises_witness :
  call (native_value
          (built (Sensor.__init__
                    {| st_name := "co2"; st_unit := None; st_icon := None;
                       st_device_class := None; st_products := [] |}
                    home porch)))
       (snapshot [] None) tt = (Ok None, tt) /\
  call (native_value (built (Sensor.__init__ entries_captured_today home porch)))
       (snapshot [] None) tt = (Ok (Some (SVint 0)), tt) /\
  call (reading (built (Sensor.__init__ wifi home garage)))
       (snapshot [] None) tt = (Ok None, tt).
Proof.
  refine (conj _ (conj _ _)).
  - apply sensor_never_raises; discriminate.
  - destruct (sensor_never_raises (snapshot [] None)
                (built (Sensor.__init__ entries_captured_today home porch)))
      as (_ & _ & H & _).
    destruct (H eq_refl) as [_ Hempty]. exact (Hempty eq_refl).
  - destruct (sensor_never_raises (snapshot [] None)
                (built (Sensor.__init__ wifi home garage)))
      as (_ & H & _).
    destruct (H eq_refl) as [Hreading _]. exact Hreading.
Defined.

Lemma attribute_iff_air_quality_value_witness :
  (exists v,
     fst (call (native_value (built (Sensor.__init__ air_quality home porch)))
               (snapshot [] (Some 0.5%float)) tt) = Ok (Some v)) /\
  ~ (exists a,
       fst (call (extra_state_attributes
                    (built (Sensor.__init__ temperature home porch)))
                 (snapshot [] (Some 0.5%float)) tt) = Ok (Some a)).
Proof.
  split.
  - apply (attribute_iff_air_quality_value air_quality home porch
             (snapshot [] (Some 0.5%float)) _ eq_refl).
    eexists. reflexivity.
  - intros H.
    apply (attribute_iff_air_quality_value temperature home porch
             (snapshot [] (Some 0.5%float)) _ eq_refl) in H as [H _].
    discriminate.
Defined.

Lemma setup_sensors_are_typed_witness :
  let attic_wifi := built (Sensor.__init__ wifi home attic) in
  is_Some (_canary_type attic_wifi) /\
  (_canary_data_type attic_wifi = Some "reading"%string \/
   _canary_data_type attic_wifi = Some "entry"%string) /\
  exists model,
    Sensor._attr_device_info_model attic_wifi = Some model /\
    In model [CANARY_PRO; CANARY_FLEX; CANARY_VIEW].
Proof.
  cbn zeta.
  destruct (setup_sensors_are_typed (snapshot [] None))
    as (sensors & Hsetup & Htyped).
  apply Htyped. vm_compute in Hsetup. injection Hsetup as <-.
  vm_compute. auto 10.
Defined.

Lemma sensors_per_device_witness :
  (exists sensors,
     Sensor.async_setup_entry (snapshot [] None) = Ok sensors /\
     length sensors = 8%nat) /\
  sensors_of_model None = 0%nat /\
  sensors_of_model (Some "Canary Mini"%string) = 0%nat.
Proof.
  destruct (sensors_per_device (snapshot [] None))
    as ((sensors & Hsetup & Hlen) & _ & _ & _ & Hnone).
  split; [exists sensors; split; [exact Hsetup|rewrite Hlen; reflexivity]|].
  split; apply Hnone; discriminate.
Defined.

End MoreOnTheHousehold.
